(** * Tox21 data preparation and per-class metrics: a shallow embedding

    The development follows the two scripts of the repository:

    - [data_preprocessing.py]: [convert_sdf_to_npz] with its two structure
      encoders and [main];
    - [fc_nn_tox21-multi-task.py]: the accuracy part of [each_metric].

    Python statements are embedded in a state-and-exception monad: a raised
    exception keeps every mutation made before it, as in Python.  RDKit,
    Keras, NumPy and the random number generator are an interface
    ([Library]) the code is parametric in. *)

From Stdlib Require Import ZArith QArith Permutation.
From stdpp Require Import gmap strings list.

Set Default Proof Using "Type".
Local Open Scope string_scope.
Local Open Scope list_scope.

(** ** Exceptions and the monad of statements *)

Inductive exn : Type :=
  | AttributeError (msg : string)
  | NameError (msg : string)
  | TypeError (msg : string)
  | ValueError (msg : string)
  | KeyError (key : string)
  | IndexError
  | AssertionError
  | ZeroDivisionError.

Inductive result (A : Type) : Type :=
  | Ok (a : A)
  | Raise (e : exn).
Arguments Ok {A} a.
Arguments Raise {A} e.

Definition is_AttributeError (e : exn) : bool :=
  match e with AttributeError _ => true | _ => false end.

Definition is_NameError (e : exn) : bool :=
  match e with NameError _ => true | _ => false end.

(** A statement reads and writes a state [S] and either completes with a
    value or raises; the state it leaves behind is kept in both cases. *)
Definition M (S A : Type) : Type := S → result A * S.

Module Stmt.
Definition ret {S A} (a : A) : M S A := λ s, (Ok a, s).
Definition bind {S A B} (m : M S A) (k : A → M S B) : M S B :=
  λ s, match m s with
       | (Ok a, s') => k a s'
       | (Raise e, s') => (Raise e, s')
       end.
Definition raise {S A} (e : exn) : M S A := λ s, (Raise e, s).
Definition gets {S A} (f : S → A) : M S A := λ s, (Ok (f s), s).
Definition modify {S} (f : S → S) : M S unit := λ s, (Ok tt, f s).
(** [lift r]: the value of an expression that may raise. *)
Definition lift {S A} (r : result A) : M S A := λ s, (r, s).
(** [try: m except E as err: h err], for the exceptions [catches] accepts. *)
Definition try_except {S A} (m : M S A) (catches : exn → bool)
    (h : exn → M S A) : M S A :=
  λ s, match m s with
       | (Raise e, s') => if catches e then h e s' else (Raise e, s')
       | r => r
       end.
(** [for a in l: f a] *)
Fixpoint for_each {S A} (f : A → M S unit) (l : list A) : M S unit :=
  match l with
  | [] => ret tt
  | a :: l' => bind (f a) (λ _, for_each f l')
  end.
(** [[f a for a in l]] *)
Fixpoint comprehension {S A B} (f : A → M S B) (l : list A) : M S (list B) :=
  match l with
  | [] => ret []
  | a :: l' => bind (f a) (λ b, bind (comprehension f l') (λ bs, ret (b :: bs)))
  end.
End Stmt.

#[global] Instance M_ret {S} : MRet (M S) := @Stmt.ret S.
#[global] Instance M_bind {S} : MBind (M S) := λ A B k m, Stmt.bind m k.

(** ** Strings *)

(** [s.replace(old, new)] for a non-empty [old]: the occurrences of [old] are
    found from the left and do not overlap.  [skip] counts the characters of
    an occurrence still to be dropped. *)
Fixpoint replace_from (old new : string) (skip : nat) (s : string) : string :=
  match s with
  | EmptyString => EmptyString
  | String c s' =>
      match skip with
      | S k => replace_from old new k s'
      | O =>
          if String.prefix old s
          then new +:+ replace_from old new (String.length old - 1) s'
          else String c (replace_from old new 0 s')
      end
  end.

(** With an empty [old], Python puts [new] before every character and at
    the end. *)
Fixpoint interleave (new s : string) : string :=
  match s with
  | EmptyString => new
  | String c s' => new +:+ String c (interleave new s')
  end.

Definition str_replace (s old new : string) : string :=
  match old with
  | EmptyString => interleave new s
  | _ => replace_from old new 0 s
  end.

(** The double quote character, for the messages that contain it. *)
Definition dq : string := String (Ascii.ascii_of_nat 34) EmptyString.

(** *** What replacing every occurrence means

    [old] occurs in [s] after the prefix [a]; a string with no occurrence is
    left as it is; otherwise the leftmost occurrence is replaced and the
    rest of the string, after that occurrence, is treated in the same way. *)
Definition occurs_at (old s a : string) : Prop := ∃ b, s = a +:+ old +:+ b.
Definition occurs (old s : string) : Prop := ∃ a, occurs_at old s a.

Inductive replaced_all (old new : string) : string → string → Prop :=
  | replaced_none s : ¬ occurs old s → replaced_all old new s s
  | replaced_first a b r :
      (∀ a', occurs_at old (a +:+ old +:+ b) a' →
             (String.length a ≤ String.length a')%nat) →
      replaced_all old new b r →
      replaced_all old new (a +:+ old +:+ b) (a +:+ new +:+ r).

(** ** The libraries the scripts call

    The calls of RDKit, PIL and Keras on a molecule or an image are total;
    what they do on [None] is written where the scripts can pass it.
    [SDMolSupplier] is the content of the file at a path, which is taken to
    exist.  The generator of [random] is a state with a draw [randbelow g n]
    below [n]; [random.shuffle] is written out over it further down, as
    CPython has it. *)

Class Library : Type := {
  (** RDKit *)
  Mol : Type;
  value : Type;                              (* a property value *)
  SDMolSupplier : string → list (option Mol); (* [None]: a record that fails to parse *)
  GetPropsAsDict : Mol → gmap string value;
  MolToSmiles : Mol → string;
  MolFromSmiles : string → option Mol;       (* [None]: a string that fails to parse *)
  RDKFingerprint : Mol → list bool;          (* the bit vector, as [list] reads it *)
  (** RDKit drawing, PIL and Keras *)
  image : Type;
  pixels : Type;
  MolToImage : Mol → nat * nat → image;
  convert_mode_L : image → image;
  img_to_array : image → pixels;
  (** [random] *)
  rng_state : Type;
  seed : Z → rng_state;
  randbelow : rng_state → nat → nat * rng_state;
}.

Section DataPreprocessing.
Context `{lib : Library}.

(** A stored structure: fingerprint bits or the array of a rendered image. *)
Inductive structure : Type :=
  | Fingerprint (bits : list bool)
  | Image2D (a : pixels).

(** What [np.savez(path, x=X, y=Y)] is called with. *)
Record npz : Type := mkNpz {
  npz_path : string;
  npz_x : list structure;
  npz_y : list (list value);
}.

Inductive event : Type :=
  | PrintStart (sdf_file_path struct_type : string) (properties : option (list string))
  | PrintProcessed (counter tot_num_mols : nat)
  | LogWarning (err : exn)
  | LogDebug (len_X len_Y len_mols : nat)
  | LogInfo (len_mols : nat) (properties : option (list string)).

(** The variables of [convert_sdf_to_npz] ([X], [Y], [counter]) and the
    world around it: what was printed and logged, in order ([trace], newest
    last), the state of the module-level generator, and the calls of
    [np.savez] so far. *)
Record state : Type := mkState {
  X : list structure;
  Y : list (list value);
  counter : nat;
  trace : list event;
  rng : rng_state;
  saved : list npz;
}.

Definition set_X (f : list structure → list structure) (s : state) : state :=
  mkState (f (X s)) (Y s) (counter s) (trace s) (rng s) (saved s).
Definition set_Y (f : list (list value) → list (list value)) (s : state) : state :=
  mkState (X s) (f (Y s)) (counter s) (trace s) (rng s) (saved s).
Definition set_counter (f : nat → nat) (s : state) : state :=
  mkState (X s) (Y s) (f (counter s)) (trace s) (rng s) (saved s).
Definition emit (e : event) (s : state) : state :=
  mkState (X s) (Y s) (counter s) (trace s ++ [e]) (rng s) (saved s).
Definition set_rng (g : rng_state) (s : state) : state :=
  mkState (X s) (Y s) (counter s) (trace s) g (saved s).
Definition savez (f : npz) (s : state) : state :=
  mkState (X s) (Y s) (counter s) (trace s) (rng s) (saved s ++ [f]).

(** ** The structure encoders *)

Definition null_fingerprint_error : exn :=
  TypeError "Python argument types in RDKFingerprint(NoneType) did not match C++ signature".
Definition null_image_error : exn := ValueError "Null molecule provided".

(** [convert_smiles_into_fingerprints]: [RDKFingerprint] rejects the [None]
    that [MolFromSmiles] returns for a string it cannot parse, with the
    [TypeError] of a call that matches no signature. *)
Definition convert_smiles_into_fingerprints (smile : string) : result (list bool) :=
  match MolFromSmiles smile with
  | Some mol => Ok (RDKFingerprint mol)
  | None => Raise null_fingerprint_error
  end.

(** [convert_smiles_into_2d_structure_images]: [Draw.MolToImage] rejects
    [None] with a [ValueError]. *)
Definition convert_smiles_into_2d_structure_images (smile : string) : result image :=
  match MolFromSmiles smile with
  | Some mol => Ok (convert_mode_L (MolToImage mol (800, 800)%nat))
  | None => Raise null_image_error
  end.

(** ** The conversion loop *)

Definition unknown_struct_type : exn :=
  NameError ("The structure type specified does not exist. Valid values: ["
             +:+ dq +:+ "fingerprints" +:+ dq +:+ ", " +:+ dq +:+ "2Dimg" +:+ dq +:+ "]").

Definition none_has_no_props : exn :=
  AttributeError "'NoneType' object has no attribute 'GetPropsAsDict'".
Definition null_smiles_error : exn :=
  TypeError "Python argument types in MolToSmiles(NoneType) did not match C++ signature".
Definition none_not_iterable : exn :=
  TypeError "'NoneType' object is not iterable".

(** [mol.GetPropsAsDict()], where [mol] may be [None] *)
Definition get_props (mol : option Mol) : result (gmap string value) :=
  match mol with
  | Some m => Ok (GetPropsAsDict m)
  | None => Raise none_has_no_props
  end.

(** [set(properties)], where [properties] may be [None] *)
Definition py_set (properties : option (list string)) : result (gset string) :=
  match properties with
  | Some props => Ok (list_to_set props)
  | None => Raise none_not_iterable
  end.

(** [for key in properties], where [properties] may be [None] *)
Definition py_iter (properties : option (list string)) : result (list string) :=
  match properties with
  | Some props => Ok props
  | None => Raise none_not_iterable
  end.

(** [Chem.MolToSmiles(mol)], where [mol] may be [None] *)
Definition mol_to_smiles (mol : option Mol) : result string :=
  match mol with
  | Some m => Ok (MolToSmiles m)
  | None => Raise null_smiles_error
  end.

(** [properties_dict[key]] *)
Definition getitem (properties_dict : gmap string value) (key : string) : result value :=
  match properties_dict !! key with
  | Some v => Ok v
  | None => Raise (KeyError key)
  end.

(** The structure of a SMILES string, lines 56 to 66. *)
Definition encode (struct_type smile : string) : result structure :=
  if String.eqb struct_type "fingerprints" then
    match convert_smiles_into_fingerprints smile with
    | Ok bits => Ok (Fingerprint bits)
    | Raise e => Raise e
    end
  else if String.eqb struct_type "2Dimg" then
    match convert_smiles_into_2d_structure_images smile with
    | Ok img => Ok (Image2D (img_to_array img))
    | Raise e => Raise e
    end
  else Raise unknown_struct_type.

(** The body of the [try], lines 47 to 69. *)
Definition try_body (struct_type : string) (properties : option (list string))
    (mol : option Mol) : M state unit :=
  properties_dict ← Stmt.lift (get_props mol);
  requested ← Stmt.lift (py_set properties);
  if bool_decide (requested ⊆ dom properties_dict) then
    smile ← Stmt.lift (mol_to_smiles mol);
    structure ← Stmt.lift (encode struct_type smile);
    Stmt.modify (set_X (λ X, X ++ [structure]));;
    keys ← Stmt.lift (py_iter properties);
    row ← Stmt.comprehension (λ key, Stmt.lift (getitem properties_dict key)) keys;
    Stmt.modify (set_Y (λ Y, Y ++ [row]))
  else mret tt.

(** One iteration of the [for], lines 46 to 76. *)
Definition loop_body (struct_type : string) (properties : option (list string))
    (tot_num_mols : nat) (mol : option Mol) : M state unit :=
  Stmt.try_except (try_body struct_type properties mol) is_AttributeError
    (λ err, Stmt.modify (emit (LogWarning err)));;
  counter ← Stmt.gets counter;
  (if (counter mod 1000 =? 0)%nat
   then Stmt.modify (emit (PrintProcessed counter tot_num_mols))
   else mret tt);;
  Stmt.modify (set_counter (λ c, c + 1)%nat).

(** ** [random.shuffle] *)

(** [x[i], x[j] = x[j], x[i]]: both reads come first and raise out of
    range; then [x[i]] is written, then [x[j]]. *)
Definition swap {A} (x : list A) (i j : nat) : result (list A) :=
  match x !! j, x !! i with
  | Some xj, Some xi => Ok (<[j := xi]> (<[i := xj]> x))
  | _, _ => Raise IndexError
  end.

(** [for i in indices: j = randbelow(i + 1); x[i], x[j] = x[j], x[i]] *)
Fixpoint shuffle_steps {A} (indices : list nat) (x : list A) (g : rng_state)
    : result (list A) * rng_state :=
  match indices with
  | [] => (Ok x, g)
  | i :: rest =>
      let '(j, g') := randbelow g (i + 1) in
      match swap x i j with
      | Ok x' => shuffle_steps rest x' g'
      | Raise e => (Raise e, g')
      end
  end.

(** [reversed(range(1, len(x)))] *)
Definition shuffle_indices (n : nat) : list nat := rev (seq 1 (n - 1)).

Definition shuffle {A} (x : list A) (g : rng_state) : result (list A) * rng_state :=
  shuffle_steps (shuffle_indices (length x)) x g.

(** [random.shuffle(mols)] on the generator of the module [random] *)
Definition random_shuffle {A} (mols : list A) : M state (list A) :=
  λ s, let '(r, g') := shuffle mols (rng s) in (r, set_rng g' s).

(** ** After the loop *)

(** [assert c] *)
Definition py_assert (c : bool) : M state unit :=
  if c then mret tt else Stmt.raise AssertionError.

Definition unpack_error : exn :=
  ValueError "not enough values to unpack (expected 2, got 0)".

(** Line 90, the unpacking of [zip] applied to the starred [mols]: [zip] of
    no argument yields nothing to unpack; of at least one pair it yields the
    two columns. *)
Definition unzip {A B} (mols : list (A * B)) : result (list A * list B) :=
  match mols with
  | [] => Raise unpack_error
  | _ :: _ => Ok (mols.*1, mols.*2)
  end.

(** [a or b] on an optional string: [None] and the empty string are false. *)
Definition py_or (a : option string) (b : string) : string :=
  match a with
  | None | Some EmptyString => b
  | Some p => p
  end.

(** Lines 41 to 76: the two lists, the counter and the loop over the
    supplier. *)
Definition collect (struct_type : string) (properties : option (list string))
    (suppl : list (option Mol)) : M state unit :=
  Stmt.modify (set_X (λ _, []));;
  Stmt.modify (set_Y (λ _, []));;
  let tot_num_mols := length suppl in
  Stmt.modify (set_counter (λ _, 0%nat));;
  Stmt.for_each (loop_body struct_type properties tot_num_mols) suppl.

(** Lines 78 to 106: zip, assert, shuffle, unzip, save.  [np.array] keeps
    the rows and their order; the arrays are the lists they are made from. *)
Definition shuffle_and_save (sdf_file_path struct_type : string)
    (properties : option (list string)) (npz_file_path : option string)
    : M state unit :=
  X0 ← Stmt.gets X;
  Y0 ← Stmt.gets Y;
  let mols := zip X0 Y0 in
  Stmt.modify (emit (LogDebug (length X0) (length Y0) (length mols)));;
  py_assert ((length X0 =? length Y0)%nat && (length Y0 =? length mols)%nat);;
  mols ← random_shuffle mols;
  XY ← Stmt.lift (unzip mols);
  Stmt.modify (set_X (λ _, XY.1));;
  Stmt.modify (set_Y (λ _, XY.2));;
  Stmt.modify (emit (LogInfo (length mols) properties));;
  let npz_file_path :=
    py_or npz_file_path
          (str_replace sdf_file_path ".sdf" ("_" +:+ struct_type +:+ ".npz")) in
  x ← Stmt.gets X;
  y ← Stmt.gets Y;
  Stmt.modify (savez (mkNpz npz_file_path x y)).

(** [convert_sdf_to_npz] *)
Definition convert_sdf_to_npz (sdf_file_path struct_type : string)
    (properties : option (list string)) (npz_file_path : option string)
    : M state unit :=
  Stmt.modify (emit (PrintStart sdf_file_path struct_type properties));;
  collect struct_type properties (SDMolSupplier sdf_file_path);;
  shuffle_and_save sdf_file_path struct_type properties npz_file_path.

(** The default of the parameter [struct_type]. *)
Definition default_struct_type : string := "fingerprints".

(** [main] *)
Definition main : M state unit :=
  let properties := ["NR-AR"; "NR-ER-LBD"; "SR-ATAD5"] in
  convert_sdf_to_npz "data/tox21_10k_data_all.sdf" "fingerprints" (Some properties) None;;
  convert_sdf_to_npz "data/ncidb.sdf" "fingerprints" (Some ["KOW logP"]) None;;
  convert_sdf_to_npz "data/ncidb.sdf" "fingerprints" (Some ["Experimental logP"])
    (Some "data/ncidb_experim_data_fingerprints.npz");;
  convert_sdf_to_npz "data/tox21_10k_data_all.sdf" "2Dimg" (Some properties) None;;
  convert_sdf_to_npz "data/ncidb.sdf" "2Dimg" (Some ["KOW logP"]) None;;
  convert_sdf_to_npz "data/ncidb.sdf" "2Dimg" (Some ["Experimental logP"])
    (Some "data/ncidb_experim_data_fingerprints.npz").

(** The script: the module body seeds the generator (line 13), then [main]
    runs. *)
Definition script : M state unit :=
  Stmt.modify (set_rng (seed 1));;
  main.

(** A fresh process: nothing printed or saved yet, and a generator in the
    state [entropy] that [import random] left it in. *)
Definition fresh (entropy : rng_state) : state := mkState [] [] 0 [] entropy [].

(** ** Names for the states and conditions the statements below speak of *)

(** The path handed to [np.savez], line 103. *)
Definition output_path (sdf_file_path struct_type : string)
    (npz_file_path : option string) : string :=
  py_or npz_file_path
        (str_replace sdf_file_path ".sdf" ("_" +:+ struct_type +:+ ".npz")).

(** The state at the head of the loop: lines 41 to 44 have run. *)
Definition init_vars (s : state) : state :=
  mkState [] [] 0 (trace s) (rng s) (saved s).

(** Lines 74 to 76 after a body that completed. *)
Definition next_record (tot : nat) (s : state) : state :=
  set_counter (λ c, c + 1)%nat
    ((if (counter s mod 1000 =? 0)%nat
      then emit (PrintProcessed (counter s) tot) else id) s).

(** Lines 71 to 76 after a body that raised the [AttributeError] [err]. *)
Definition skip_record (tot : nat) (err : exn) (s : state) : state :=
  set_counter (λ c, c + 1)%nat
    ((if (counter s mod 1000 =? 0)%nat
      then emit (PrintProcessed (counter s) tot) else id)
       (emit (LogWarning err) s)).

(** The record parses to a molecule that has every requested property. *)
Definition qualifies (props : list string) (mol : option Mol) : Prop :=
  ∃ m, mol = Some m ∧ ∀ key, key ∈ props → is_Some (GetPropsAsDict m !! key).

(** [row] lists the values of the requested properties of [m], in the
    order of [props]. *)
Definition labels_of (props : list string) (m : Mol) (row : list value) : Prop :=
  Forall2 (λ key v, GetPropsAsDict m !! key = Some v) props row.

(** What one record adds to the dataset: a pair or nothing ([slot]). *)
Definition contributes (struct_type : string) (props : list string)
    (mol : option Mol) (slot : option (structure * list value)) : Prop :=
  (is_Some slot ↔ qualifies props mol) ∧
  ∀ x y, slot = Some (x, y) →
    ∃ m, mol = Some m ∧ encode struct_type (MolToSmiles m) = Ok x
         ∧ labels_of props m y.

Definition includes (props : list string)
    (mol : option Mol) (slot : option (structure * list value)) : Prop :=
  (is_Some slot ↔ qualifies props mol) ∧
  ∀ x y, slot = Some (x, y) → ∃ m, mol = Some m ∧ labels_of props m y.

Definition fingerprint_slot (props : list string)
    (mol : option Mol) (slot : option (structure * list value)) : Prop :=
  (is_Some slot ↔ qualifies props mol) ∧
  ∀ x y, slot = Some (x, y) →
    ∃ m m', mol = Some m ∧ MolFromSmiles (MolToSmiles m) = Some m'
            ∧ x = Fingerprint (RDKFingerprint m').

(** The pairs of a list of slots, in order. *)
Definition pairs_of (slots : list (option (structure * list value)))
    : list (structure * list value) :=
  omap id slots.

(** The transposition of [i] and [j]. *)
Definition transpose (i j k : nat) : nat :=
  if decide (k = i) then j else if decide (k = j) then i else k.

End DataPreprocessing.

(** * The per-class metrics of [fc_nn_tox21-multi-task.py] *)

(** A two-dimensional NumPy array: its [shape] and its rows.  The entries
    are exact rationals. *)
Record ndarray : Type := mkArray {
  shape : nat * nat;
  rows : list (list Q);
}.

Definition well_shaped (a : ndarray) : Prop :=
  length (rows a) = (shape a).1 ∧ Forall (λ r, length r = (shape a).2) (rows a).

Inductive line : Type :=
  | PrintAccuracy (class : string) (accuracy : Q)
  | PrintRule
  | PrintF1 (class : string) (f1 : Q).

Definition classes : list string := ["NR-AR"; "NR-ER-LBD"; "SR-ATAD5"].

(** [(v > 0.5) * 1.0] *)
Definition mask_value (v : Q) : Q := if Qle_bool v (1 # 2) then 0%Q else 1%Q.

(** [(y_pred > 0.5) * 1.0], element by element *)
Definition mask (a : ndarray) : ndarray :=
  mkArray (shape a) (map (map mask_value) (rows a)).

(** [a[j][i]] *)
Definition item (a : ndarray) (j i : nat) : result Q :=
  match rows a !! j with
  | Some r => match r !! i with Some v => Ok v | None => Raise IndexError end
  | None => Raise IndexError
  end.

(** [a[:, i]] *)
Definition column (a : ndarray) (i : nat) : result (list Q) :=
  if (i <? (shape a).2)%nat then Ok (omap (λ r, r !! i) (rows a))
  else Raise IndexError.

(** [classes[i]] *)
Definition class_name (i : nat) : result string :=
  match classes !! i with Some c => Ok c | None => Raise IndexError end.

(** [right / total] on two integers; the quotient is kept exact. *)
Definition true_div (right total : nat) : result Q :=
  match total with
  | O => Raise ZeroDivisionError
  | S _ => Ok (Z.of_nat right # Pos.of_nat total)
  end.

(** The inner loop, lines 34 to 36, from the count [right] on. *)
Fixpoint count_right (y_pred y_test : ndarray) (i : nat) (js : list nat)
    (right : nat) : result nat :=
  match js with
  | [] => Ok right
  | j :: js' =>
      match item y_pred j i with
      | Raise e => Raise e
      | Ok p =>
          match item y_test j i with
          | Raise e => Raise e
          | Ok t =>
              count_right y_pred y_test i js'
                (if Qeq_bool p t then right + 1 else right)%nat
          end
      end
  end.

(** Lines 31 to 38; the state is what was printed. *)
Definition accuracy_report (y_pred y_test : ndarray) (total : nat)
    : M (list line) unit :=
  Stmt.for_each (λ i,
    right ← Stmt.lift (count_right y_pred y_test i (seq 0 total) 0);
    accuracy ← Stmt.lift (true_div right total);
    class ← Stmt.lift (class_name i);
    Stmt.modify (λ out, out ++ [PrintAccuracy class accuracy]))
    (seq 0 (shape y_pred).2).

Section EachMetric.
(** [sklearn.metrics.fbeta_score(y_t, y_p, beta=1)] *)
Variable fbeta_score : list Q → list Q → result Q.

(** Lines 41 to 46 *)
Definition f1_report (y_pred y_test : ndarray) : M (list line) unit :=
  Stmt.for_each (λ i,
    y_p ← Stmt.lift (column y_pred i);
    y_t ← Stmt.lift (column y_test i);
    f1 ← Stmt.lift (fbeta_score y_t y_p);
    class ← Stmt.lift (class_name i);
    Stmt.modify (λ out, out ++ [PrintF1 class f1]))
    (seq 0 (shape y_pred).2).

(** [each_metric]; [model_predict] is [model.predict]. *)
Definition each_metric {I : Type} (input_data : I) (y_test : ndarray)
    (model_predict : I → ndarray) : M (list line) unit :=
  let y_pred := model_predict input_data in
  let y_pred := mask y_pred in
  let total := (shape y_pred).1 in
  accuracy_report y_pred y_test total;;
  Stmt.modify (λ out, out ++ [PrintRule]);;
  f1_report y_pred y_test.

End EachMetric.

(** The per-class accuracy, as the text defines it: among the test rows,
    the fraction of those whose prediction, thresholded at one half, equals
    the label in column [i]. *)
Definition thresholded (p : Q) : Q := if Qlt_le_dec (1 # 2) p then 1%Q else 0%Q.

Definition agrees (i : nat) (row : list Q * list Q) : bool :=
  match row.1 !! i, row.2 !! i with
  | Some p, Some t => Qeq_bool (thresholded p) t
  | _, _ => false
  end.

Definition per_class_accuracy (y_pred y_test : ndarray) (i : nat) : Q :=
  Z.of_nat (length (List.filter (agrees i) (zip (rows y_pred) (rows y_test))))
  # Pos.of_nat (length (rows y_test)).

Definition accuracy_lines (y_pred y_test : ndarray) : list line :=
  map (λ i, PrintAccuracy (classes !!! i) (per_class_accuracy y_pred y_test i))
      (seq 0 (shape y_pred).2).

(** Row [j] of the two arrays agrees in column [i]. *)
Definition hit (y_pred y_test : ndarray) (i j : nat) : bool :=
  match zip (rows y_pred) (rows y_test) !! j with
  | Some row => agrees i row
  | None => false
  end.

(** * A small instance of the libraries, to run the definitions on *)

Module Toy.

Record mol : Type := mkMol {
  smiles : string;
  props : list (string * Z);
}.

Definition ethanol : mol :=
  mkMol "CCO" [("NR-AR", 1%Z); ("NR-ER-LBD", 1%Z); ("SR-ATAD5", 0%Z)].
Definition benzene : mol := mkMol "c1ccccc1" [("SR-ATAD5", 1%Z)].
Definition water : mol :=
  mkMol "O" [("SR-ATAD5", 1%Z); ("NR-AR", 0%Z); ("ID", 5%Z); ("NR-ER-LBD", 0%Z)].
Definition ammonia : mol :=
  mkMol "N" [("NR-ER-LBD", 9%Z); ("SR-ATAD5", 7%Z); ("NR-AR", 8%Z)].

(** One file of five records, the second of which does not parse, under
    two names; one file in which no record has the property [NR-AR]; any
    other path is an empty file. *)
Definition supplier (path : string) : list (option mol) :=
  if String.eqb path "toy.sdf" || String.eqb path "data/tox21_10k_data_all.sdf"
  then [Some ethanol; None; Some benzene; Some water; Some ammonia]
  else if String.eqb path "unlabelled.sdf" then [None; Some benzene]
  else [].

(** The generator is a linear congruential one on [nat]. *)
Definition library : Library := {|
  Mol := mol;
  value := Z;
  SDMolSupplier := supplier;
  GetPropsAsDict m := list_to_map (props m);
  MolToSmiles := smiles;
  MolFromSmiles s := if String.eqb s "" then None else Some (mkMol s []);
  RDKFingerprint m := [Nat.even (String.length (smiles m)); true];
  image := string;
  pixels := nat;
  MolToImage m _ := smiles m;
  convert_mode_L img := img;
  img_to_array img := String.length img;
  rng_state := nat;
  seed z := Z.to_nat z;
  randbelow g n := ((g `mod` n)%nat, ((g * 75 + 74) `mod` 1009)%nat);
|}.

Definition requested : list string := ["NR-AR"; "SR-ATAD5"].

(** Two predictions for three classes, and the labels. *)
Definition y_pred : ndarray :=
  mkArray (2, 3)%nat [[9 # 10; 1 # 2; 3 # 10]; [6 # 10; 7 # 10; 1 # 10]]%Q.
Definition y_test : ndarray :=
  mkArray (2, 3)%nat [[1; 0; 1]; [1; 0; 0]]%Q.

(** One prediction for four classes, and no prediction for three. *)
Definition y_pred4 : ndarray := mkArray (1, 4)%nat [[9 # 10; 1 # 10; 1 # 10; 8 # 10]]%Q.
Definition y_test4 : ndarray := mkArray (1, 4)%nat [[1; 0; 0; 1]]%Q.
Definition y_none : ndarray := mkArray (0, 3)%nat [].

Definition f1_zero (y_t y_p : list Q) : result Q := Ok 0%Q.

End Toy.

(** * Further names: what a call logs, image slots, a second instance *)

Section Logging.
Context `{lib : Library}.

(** What one iteration of the loop prints and logs when it completes, for
    the record [mol] met with the counter at [c]: a warning if the record
    did not parse, then the progress line if [c] is a multiple of 1000. *)
Definition events_of (tot c : nat) (mol : option Mol) : list event :=
  (match mol with
   | None => [LogWarning none_has_no_props]
   | Some _ => []
   end)
  ++ (if (c mod 1000 =? 0)%nat then [PrintProcessed c tot] else []).

Fixpoint loop_events (tot c : nat) (suppl : list (option Mol)) : list event :=
  match suppl with
  | [] => []
  | mol :: rest => events_of tot c mol ++ loop_events tot (S c) rest
  end.

Definition is_warning (e : event) : bool :=
  match e with LogWarning _ => true | _ => false end.

Definition is_progress (e : event) : bool :=
  match e with PrintProcessed _ _ => true | _ => false end.

Definition is_unparsed (mol : option Mol) : bool :=
  match mol with None => true | Some _ => false end.

(** The slot of a record when [struct_type] is ['2Dimg']: the array of the
    800 by 800 grayscale drawing of the molecule read back from the
    canonical SMILES. *)
Definition image_slot (props : list string)
    (mol : option Mol) (slot : option (structure * list value)) : Prop :=
  (is_Some slot ↔ qualifies props mol) ∧
  ∀ x y, slot = Some (x, y) →
    ∃ m m', mol = Some m ∧ MolFromSmiles (MolToSmiles m) = Some m'
            ∧ x = Image2D (img_to_array
                             (convert_mode_L (MolToImage m' (800, 800)%nat))).

Definition is_fingerprint (x : structure) : bool :=
  match x with Fingerprint _ => true | Image2D _ => false end.

Definition is_image (x : structure) : bool :=
  match x with Image2D _ => true | Fingerprint _ => false end.

End Logging.

(** The column [i] of an array, as the list of its entries. *)
Definition column_of (a : ndarray) (i : nat) : list Q :=
  omap (λ r, r !! i) (rows a).

(** The F1 lines of a report, for a score [f] that does not raise. *)
Definition f1_lines (f : list Q → list Q → Q) (y_pred y_test : ndarray) : list line :=
  map (λ i, PrintF1 (classes !!! i)
              (f (column_of y_test i) (map thresholded (column_of y_pred i))))
      (seq 0 (shape y_pred).2).

(** A printed accuracy between 0 and 1. *)
Definition accuracy_in_range (l : line) : Prop :=
  ∃ c a, l = PrintAccuracy c a ∧ (0 <= a)%Q ∧ (a <= 1)%Q.

(** The outcome [r] is that of a statement that completed. *)
Definition completes {S A : Type} (r : result A * S) : bool :=
  match r.1 with Ok _ => true | Raise _ => false end.

(** [old in s] *)
Fixpoint contains (old s : string) : bool :=
  match s with
  | EmptyString => String.prefix old s
  | String _ s' => String.prefix old s || contains old s'
  end.

(** A second instance, in which every call of [main] finds its records. *)
Module Lab.

Definition octanol : Toy.mol :=
  Toy.mkMol "CCCCCCCCO" [("KOW logP", 3%Z); ("Experimental logP", 3%Z)].
Definition phenol : Toy.mol :=
  Toy.mkMol "Oc1ccccc1" [("Experimental logP", 1%Z); ("KOW logP", 2%Z)].
Definition hexane : Toy.mol := Toy.mkMol "CCCCCC" [("KOW logP", 4%Z)].

Definition supplier (path : string) : list (option Toy.mol) :=
  if String.eqb path "data/ncidb.sdf"
  then [Some octanol; Some hexane; None; Some phenol]
  else if String.eqb path "molecules" || String.eqb path "data/tox21_10k_data_all.sdf"
  then [Some Toy.ethanol; None; Some Toy.benzene; Some Toy.water; Some Toy.ammonia]
  else [].

Definition library : Library := {|
  Mol := Toy.mol;
  value := Z;
  SDMolSupplier := supplier;
  GetPropsAsDict m := list_to_map (Toy.props m);
  MolToSmiles := Toy.smiles;
  MolFromSmiles s := if String.eqb s "" then None else Some (Toy.mkMol s []);
  RDKFingerprint m := [Nat.even (String.length (Toy.smiles m)); true];
  image := string;
  pixels := nat;
  MolToImage m _ := Toy.smiles m;
  convert_mode_L img := img;
  img_to_array img := String.length img;
  rng_state := nat;
  seed z := Z.to_nat z;
  randbelow g n := ((g `mod` n)%nat, ((g * 75 + 74) `mod` 1009)%nat);
|}.

(** A prediction for four classes with two rows. *)
Definition y_pred4 : ndarray :=
  mkArray (2, 4)%nat [[9 # 10; 1 # 10; 1 # 10; 8 # 10]; [2 # 10; 7 # 10; 1 # 10; 8 # 10]]%Q.
Definition y_test4 : ndarray :=
  mkArray (2, 4)%nat [[1; 0; 0; 1]; [1; 1; 1; 0]]%Q.

(** A score that does not raise: the number of labels. *)
Definition count_score (y_t y_p : list Q) : Q := Z.of_nat (length y_t) # 1.

End Lab.

(** * Further names: whole calls, the script, the file written *)

Section Calls.
Context `{lib : Library}.

Definition is_parsed (mol : option Mol) : bool :=
  match mol with Some _ => true | None => false end.

(** The two arrays of a saved file. *)
Definition arrays (f : npz) : list structure * list (list value) :=
  (npz_x f, npz_y f).

(** The list [x] read through the list of indices [σ]. *)
Definition reindex {A} (σ : list nat) (x : list A) : list A :=
  omap (λ i, x !! i) σ.

(** What the body of the [try] does to [X] and [Y]: it appends a pair or
    leaves them alone. *)
Definition append_pair (upd : option (structure * list value)) (s : state) : state :=
  match upd with
  | Some (x, row) => set_Y (λ Y, Y ++ [row]) (set_X (λ X, X ++ [x]) s)
  | None => s
  end.

Definition same_lists (s t : state) : Prop := X s = X t ∧ Y s = Y t.

(** Neither a warning nor a progress line. *)
Definition is_summary (e : event) : bool :=
  match e with LogDebug _ _ _ | LogInfo _ _ => true | _ => false end.

(** The pairs the loop of a call collects, in file order. The loop starts
    from empty lists, whatever the state of the call, so that any state
    serves to run it in. *)
Definition file_order_pairs (sdf_file_path struct_type : string)
    (properties : option (list string)) : list (structure * list value) :=
  let s1 := (collect struct_type properties (SDMolSupplier sdf_file_path)
               (fresh (seed 1))).2 in
  zip (X s1) (Y s1).

(** The arguments of one call of [convert_sdf_to_npz]. *)
Record call : Type := mkCall {
  call_sdf : string;
  call_struct_type : string;
  call_properties : option (list string);
  call_npz : option string;
}.

(** The six calls of [main], in order. *)
Definition main_calls : list call :=
  let properties := ["NR-AR"; "NR-ER-LBD"; "SR-ATAD5"] in
  [mkCall "data/tox21_10k_data_all.sdf" "fingerprints" (Some properties) None;
   mkCall "data/ncidb.sdf" "fingerprints" (Some ["KOW logP"]) None;
   mkCall "data/ncidb.sdf" "fingerprints" (Some ["Experimental logP"])
     (Some "data/ncidb_experim_data_fingerprints.npz");
   mkCall "data/tox21_10k_data_all.sdf" "2Dimg" (Some properties) None;
   mkCall "data/ncidb.sdf" "2Dimg" (Some ["KOW logP"]) None;
   mkCall "data/ncidb.sdf" "2Dimg" (Some ["Experimental logP"])
     (Some "data/ncidb_experim_data_fingerprints.npz")].

(** The calls of a list, one after the other. *)
Fixpoint run_calls (calls : list call) : M state unit :=
  match calls with
  | [] => mret tt
  | c :: rest =>
      convert_sdf_to_npz (call_sdf c) (call_struct_type c) (call_properties c)
        (call_npz c);;
      run_calls rest
  end.

(** The files of a sequence of calls, from the records alone: each call
    shuffles the indices of its pairs with the generator in the state the
    call before left it in, [g] for the first, and saves the pairs in that
    order. *)
Fixpoint seeded_files (g : rng_state) (calls : list call) : list npz :=
  match calls with
  | [] => []
  | c :: rest =>
      let rows :=
        file_order_pairs (call_sdf c) (call_struct_type c) (call_properties c) in
      match shuffle (seq 0 (length rows)) g with
      | (Ok σ, g') =>
          mkNpz (output_path (call_sdf c) (call_struct_type c) (call_npz c))
                (reindex σ rows).*1 (reindex σ rows).*2
          :: seeded_files g' rest
      | (Raise _, _) => []
      end
  end.

End Calls.

(** ** The file [np.savez] writes *)

(** [s.endswith(suffix)] *)
Fixpoint ends_with (s suffix : string) : bool :=
  String.eqb s suffix
  || match s with
     | EmptyString => false
     | String _ s' => ends_with s' suffix
     end.

(** NumPy's [savez], given a string: [if not file.endswith('.npz'): file =
    file + '.npz'], and the archive is written under that name. *)
Definition npz_filename (file : string) : string :=
  if ends_with file ".npz" then file else file +:+ ".npz".

Definition written_file `{lib : Library} (f : npz) : string :=
  npz_filename (npz_path f).

(** A third instance: the file of [Toy] and a copy of it without the
    record that does not parse. *)
Module Clean.

Definition supplier (path : string) : list (option Toy.mol) :=
  if String.eqb path "parsed.sdf"
  then [Some Toy.ethanol; Some Toy.benzene; Some Toy.water; Some Toy.ammonia]
  else Toy.supplier path.

Definition library : Library := {|
  Mol := Toy.mol;
  value := Z;
  SDMolSupplier := supplier;
  GetPropsAsDict m := list_to_map (Toy.props m);
  MolToSmiles := Toy.smiles;
  MolFromSmiles s := if String.eqb s "" then None else Some (Toy.mkMol s []);
  RDKFingerprint m := [Nat.even (String.length (Toy.smiles m)); true];
  image := string;
  pixels := nat;
  MolToImage m _ := Toy.smiles m;
  convert_mode_L img := img;
  img_to_array img := String.length img;
  rng_state := nat;
  seed z := Z.to_nat z;
  randbelow g n := ((g `mod` n)%nat, ((g * 75 + 74) `mod` 1009)%nat);
|}.

End Clean.

(** * Proofs *)

(** Unfolds the statements of the monad, and nothing else. *)
Ltac run :=
  cbv beta iota zeta delta
    [mbind mret M_bind M_ret Stmt.bind Stmt.ret Stmt.lift Stmt.modify
     Stmt.gets Stmt.raise Stmt.try_except get_props py_set py_iter
     mol_to_smiles].

Lemma for_each_cons {S A} (f : A → M S unit) (a : A) (l : list A) (s : S) :
  Stmt.for_each f (a :: l) s
  = match f a s with
    | (Ok _, s') => Stmt.for_each f l s'
    | (Raise e, s') => (Raise e, s')
    end.
Proof. reflexivity. Qed.


(** ** [str.replace] replaces every occurrence *)

Lemma append_cons (c : Ascii.ascii) (a b : string) :
  String c a +:+ b = String c (a +:+ b).
Proof. reflexivity. Qed.

Lemma append_empty (b : string) : "" +:+ b = b.
Proof. reflexivity. Qed.

Lemma prefix_append (old s : string) : String.prefix old s = true ↔ ∃ b, s = old +:+ b.
Proof.
  revert s. induction old as [|c old IH]; intros [|c' s]; cbn [String.prefix].
  - split; [by exists "" | done].
  - split; [by eexists | done].
  - split; [done | by intros [b [=]]].
  - destruct (Ascii.ascii_dec c c') as [<-|Hne].
    + rewrite IH. split; intros [b Hb]; exists b.
      * by rewrite append_cons, Hb.
      * rewrite append_cons in Hb. by injection Hb.
    + split; [done | intros [b Hb]]. rewrite append_cons in Hb. by injection Hb.
Qed.

Lemma length_append (a b : string) :
  String.length (a +:+ b) = (String.length a + String.length b)%nat.
Proof.
  induction a as [|c a IH]; [done |].
  rewrite append_cons. cbn [String.length]. by rewrite IH.
Qed.

Lemma replace_from_skip (old new a b : string) :
  replace_from old new (String.length a) (a +:+ b) = replace_from old new 0 b.
Proof. induction a as [|c a IH]; [done | exact IH]. Qed.

Lemma occurs_in_tail (old : string) (c : Ascii.ascii) (s : string) :
  String.prefix old (String c s) = false →
  ∀ a, occurs_at old (String c s) a → ∃ a', a = String c a' ∧ occurs_at old s a'.
Proof.
  intros Hp a [b Hb]. destruct a as [|c' a'].
  - rewrite append_empty in Hb. assert (String.prefix old (String c s) = true) as Ht.
    { apply prefix_append. by exists b. }
    congruence.
  - rewrite append_cons in Hb. injection Hb as <- ->.
    exists a'. split; [done | by exists b].
Qed.

Lemma not_occurs_empty (old : string) : old ≠ "" → ¬ occurs old "".
Proof.
  intros Hold [a [b Hb]]. destruct a as [|c a]; [| by rewrite append_cons in Hb].
  rewrite append_empty in Hb. destruct old; [done | by rewrite append_cons in Hb].
Qed.

Lemma replaced_all_cons (old new : string) (c : Ascii.ascii) (s r : string) :
  String.prefix old (String c s) = false →
  replaced_all old new s r → replaced_all old new (String c s) (String c r).
Proof.
  intros Hp H. destruct H as [s Hno | a b r Hleft Hrest].
  - apply replaced_none. intros [a Ha].
    destruct (occurs_in_tail _ _ _ Hp a Ha) as (a' & _ & Ha'). apply Hno. by exists a'.
  - rewrite <- !append_cons.
    apply (replaced_first old new (String c a) b r); [| done].
    intros a1 Ha1. rewrite append_cons in Ha1.
    destruct (occurs_in_tail _ _ _ Hp a1 Ha1) as (a' & -> & Ha').
    cbn [String.length]. apply le_n_S. by apply Hleft.
Qed.

Lemma replace_from_spec (old new : string) :
  old ≠ "" → ∀ n s, (String.length s ≤ n)%nat →
  replaced_all old new s (replace_from old new 0 s).
Proof.
  intros Hold. induction n as [|n IH]; intros s Hn.
  - destruct s; [| cbn in Hn; lia]. by apply replaced_none, not_occurs_empty.
  - destruct s as [|c s]; [by apply replaced_none, not_occurs_empty |].
    cbn [replace_from]. destruct (String.prefix old (String c s)) eqn:Hp.
    + apply prefix_append in Hp as [b Hb].
      destruct old as [|c' old]; [done |].
      rewrite append_cons in Hb. injection Hb as <- ->.
      cbn [String.length].
      replace (S (String.length old) - 1)%nat with (String.length old) by lia.
      rewrite replace_from_skip.
      apply (replaced_first (String c old) new "" b); [cbn; lia |].
      apply IH. cbn [String.length] in Hn. rewrite length_append in Hn. lia.
    + apply replaced_all_cons; [done |]. apply IH. cbn [String.length] in Hn. lia.
Qed.

(** [str_replace] replaces every occurrence, in the sense of [replaced_all]. *)
Lemma str_replace_spec (s old new : string) :
  old ≠ "" → replaced_all old new s (str_replace s old new).
Proof.
  intros Hold. unfold str_replace. destruct old as [|c old]; [done |].
  by eapply replace_from_spec.
Qed.

Lemma append_same_length (a a' x y : string) :
  String.length a = String.length a' → a +:+ x = a' +:+ y → a = a' ∧ x = y.
Proof.
  revert a'. induction a as [|c a IH]; intros [|c' a'] Hlen; try done.
  rewrite !append_cons. intros [= -> H]. cbn [String.length] in Hlen.
  destruct (IH a') as [-> ->]; [lia | done | done].
Qed.

(** The relation determines the result. *)
Lemma replaced_all_functional old new s r1 r2 :
  replaced_all old new s r1 → replaced_all old new s r2 → r1 = r2.
Proof.
  intros H1. revert r2. induction H1 as [s Hno | a b r Hleft Hrest IH]; intros r2 H2.
  - destruct H2 as [s _ | a b r _ _]; [done |]. destruct Hno. exists a. by exists b.
  - remember (a +:+ old +:+ b) as s eqn:Hs.
    destruct H2 as [s Hno | a' b' r' Hleft' Hrest'].
    + destruct Hno. exists a, b. done.
    + assert (String.length a = String.length a') as Hlen.
      { apply Nat.le_antisymm.
        - apply Hleft. by exists b'.
        - apply Hleft'. rewrite Hs. by exists b. }
      destruct (append_same_length _ _ _ _ Hlen (eq_sym Hs)) as [-> Hb].
      apply (inj (String.app old)) in Hb as ->. by rewrite (IH r').
Qed.

(** ** The conversion *)

Section Conversion.
Context `{lib : Library}.


Lemma subset_keys (props : list string) (d : gmap string value) :
  list_to_set (C := gset string) props ⊆ dom d ↔ ∀ key, key ∈ props → is_Some (d !! key).
Proof.
  split.
  - intros H key Hk. apply elem_of_dom, H, elem_of_list_to_set, Hk.
  - intros H key Hk. apply elem_of_dom, H. by apply elem_of_list_to_set in Hk.
Qed.

Lemma comprehension_getitem (d : gmap string value) (keys : list string) (s : state) :
  (∀ key, key ∈ keys → is_Some (d !! key)) →
  ∃ row, Stmt.comprehension (λ key, Stmt.lift (getitem d key)) keys s = (Ok row, s)
         ∧ Forall2 (λ key v, d !! key = Some v) keys row.
Proof.
  induction keys as [|k keys IH]; intros H.
  - exists []. split; [done | constructor].
  - destruct (H k) as [v Hv]; [left |].
    destruct IH as (row & Hrow & Hall).
    { intros key Hk. apply H. by right. }
    exists (v :: row). split.
    + cbn [Stmt.comprehension]. unfold Stmt.bind at 1. unfold Stmt.lift at 1. unfold getitem at 1. rewrite Hv.
      unfold Stmt.bind at 1. rewrite Hrow. reflexivity.
    + by constructor.
Qed.

(** What the body of the [try] does, case by case. *)
Lemma try_body_no_properties st mol s :
  try_body st None mol s
  = (Raise (match mol with Some _ => none_not_iterable | None => none_has_no_props end), s).
Proof. by destruct mol. Qed.

Lemma try_body_cases st props mol s :
  match mol with
  | None => try_body st (Some props) mol s = (Raise none_has_no_props, s)
  | Some m =>
      if bool_decide (list_to_set (C := gset string) props ⊆ dom (GetPropsAsDict m)) then
        match encode st (MolToSmiles m) with
        | Ok x => ∃ row, labels_of props m row ∧
                   try_body st (Some props) mol s
                   = (Ok tt, set_Y (λ Y, Y ++ [row]) (set_X (λ X, X ++ [x]) s))
        | Raise e => try_body st (Some props) mol s = (Raise e, s)
        end
      else try_body st (Some props) mol s = (Ok tt, s)
  end.
Proof.
  destruct mol as [m|]; [| reflexivity].
  unfold try_body. run.
  case_bool_decide as Hsub; [| reflexivity].
  destruct (encode st (MolToSmiles m)) as [x|e]; [| reflexivity].
  destruct (comprehension_getitem (GetPropsAsDict m) props
              (set_X (λ X, X ++ [x]) s)) as (row & Hrow & Hall).
  { by apply subset_keys. }
  exists row. split; [exact Hall |]. unfold Stmt.lift in Hrow. rewrite Hrow. reflexivity.
Qed.


Lemma loop_body_run st properties tot mol s :
  loop_body st properties tot mol s =
  match try_body st properties mol s with
  | (Ok _, s1) => (Ok tt, next_record tot s1)
  | (Raise e, s1) =>
      if is_AttributeError e then (Ok tt, skip_record tot e s1)
      else (Raise e, s1)
  end.
Proof.
  unfold loop_body. run.
  destruct (try_body st properties mol s) as [[[]|e] s1].
  - unfold next_record. by destruct (_ =? _)%nat.
  - destruct (is_AttributeError e); [| reflexivity].
    unfold skip_record. cbn [counter emit]. by destruct (_ =? _)%nat.
Qed.


Lemma encode_not_AttributeError st smile e :
  encode st smile = Raise e → is_AttributeError e = false.
Proof.
  unfold encode, convert_smiles_into_fingerprints,
    convert_smiles_into_2d_structure_images.
  repeat case_match; intros; simplify_eq; reflexivity.
Qed.

(** The body of the [try] either leaves the state as it was or appends one
    structure to [X] and one row to [Y]; it raises only in the first case. *)
Lemma try_body_outcome st properties mol s :
  let '(r, s1) := try_body st properties mol s in
  s1 = s ∨
  (r = Ok tt ∧ ∃ x row, s1 = set_Y (λ Y, Y ++ [row]) (set_X (λ X, X ++ [x]) s)).
Proof.
  destruct properties as [props|].
  - pose proof (try_body_cases st props mol s) as H.
    destruct mol as [m|]; [| rewrite H; by left].
    case_bool_decide.
    + destruct (encode st (MolToSmiles m)) as [x|e].
      * destruct H as (row & _ & ->). right. eauto.
      * rewrite H. by left.
    + rewrite H. by left.
  - rewrite try_body_no_properties. by left.
Qed.

Lemma qualifies_subset props m :
  qualifies props (Some m) ↔ list_to_set (C := gset string) props ⊆ dom (GetPropsAsDict m).
Proof.
  rewrite subset_keys. split.
  - intros (m' & [= <-] & H). exact H.
  - intros H. by exists m.
Qed.

Lemma not_qualifies_None props : ¬ qualifies props None.
Proof. by intros (m & [=] & _). Qed.

Lemma next_record_fields tot s :
  X (next_record tot s) = X s ∧ Y (next_record tot s) = Y s
  ∧ counter (next_record tot s) = (counter s + 1)%nat
  ∧ rng (next_record tot s) = rng s ∧ saved (next_record tot s) = saved s.
Proof. unfold next_record. by destruct (_ =? _)%nat. Qed.

Lemma skip_record_fields tot e s :
  X (skip_record tot e s) = X s ∧ Y (skip_record tot e s) = Y s
  ∧ counter (skip_record tot e s) = (counter s + 1)%nat
  ∧ rng (skip_record tot e s) = rng s ∧ saved (skip_record tot e s) = saved s.
Proof. unfold skip_record. cbn [counter emit]. by destruct (_ =? _)%nat. Qed.

Lemma loop_slots st props tot suppl s s' :
  Stmt.for_each (loop_body st (Some props) tot) suppl s = (Ok tt, s') →
  ∃ slots, Forall2 (contributes st props) suppl slots
    ∧ X s' = X s ++ (pairs_of slots).*1
    ∧ Y s' = Y s ++ (pairs_of slots).*2
    ∧ counter s' = (counter s + length suppl)%nat.
Proof.
  revert s. induction suppl as [|mol suppl IH]; intros s.
  - intros [= <-]. exists []. rewrite !app_nil_r. split; [constructor |]. auto with lia.
  - rewrite for_each_cons, loop_body_run.
    pose proof (try_body_cases st props mol s) as Hb.
    destruct mol as [m|].
    + case_bool_decide as Hsub.
      * destruct (encode st (MolToSmiles m)) as [x|e] eqn:Henc.
        -- destruct Hb as (row & Hrow & ->). intros Hrest.
           destruct (IH _ Hrest) as (slots & Hs & HX & HY & Hc).
           destruct (next_record_fields tot
             (set_Y (λ Y, Y ++ [row]) (set_X (λ X, X ++ [x]) s)))
             as (EX & EY & Ec & _).
           rewrite EX in HX. rewrite EY in HY. rewrite Ec in Hc.
           exists (Some (x, row) :: slots). split; [constructor; [| done] |].
           { split.
             - split; [intros _; by apply qualifies_subset | eauto].
             - intros x' y' [= <- <-]. eauto. }
           cbn in HX, HY, Hc |- *. rewrite HX, HY, Hc, <- !app_assoc.
           repeat split; auto with lia.
        -- rewrite Hb, (encode_not_AttributeError _ _ _ Henc). intros [=].
      * rewrite Hb. intros Hrest.
        destruct (IH _ Hrest) as (slots & Hs & HX & HY & Hc).
        destruct (next_record_fields tot s) as (EX & EY & Ec & _).
        rewrite EX in HX. rewrite EY in HY. rewrite Ec in Hc.
        exists (None :: slots). split; [constructor; [| done] |].
        { split; [| intros ?? [=]].
          split; [intros []; done | intros Hq; by apply qualifies_subset in Hq]. }
        cbn. rewrite HX, HY, Hc. repeat split; auto with lia.
    + rewrite Hb. change (is_AttributeError none_has_no_props) with true.
      cbv iota. intros Hrest.
      destruct (IH _ Hrest) as (slots & Hs & HX & HY & Hc).
      destruct (skip_record_fields tot none_has_no_props s) as (EX & EY & Ec & _).
      rewrite EX in HX. rewrite EY in HY. rewrite Ec in Hc.
      exists (None :: slots). split; [constructor; [| done] |].
      { split; [| intros ?? [=]].
        split; [intros []; done | intros Hq; by apply not_qualifies_None in Hq]. }
      cbn. rewrite HX, HY, Hc. repeat split; auto with lia.
Qed.


(** *** The loop, whatever its outcome *)

Lemma loop_body_preserves st properties tot mol s :
  let s' := (loop_body st properties tot mol s).2 in
  (length (X s) = length (Y s) → length (X s') = length (Y s'))
  ∧ rng s' = rng s ∧ saved s' = saved s.
Proof.
  rewrite loop_body_run.
  pose proof (try_body_outcome st properties mol s) as H.
  destruct (try_body st properties mol s) as [[[]|e] s1].
  - destruct (next_record_fields tot s1) as (EX & EY & _ & Eg & Es).
    cbn [snd]. rewrite EX, EY, Eg, Es.
    destruct H as [-> | (_ & x & row & ->)]; [done |].
    cbn. rewrite !length_app. cbn. auto with lia.
  - destruct H as [-> | ([=] & _)].
    destruct (is_AttributeError e); [| done].
    destruct (skip_record_fields tot e s) as (EX & EY & _ & Eg & Es).
    cbn [snd]. by rewrite EX, EY, Eg, Es.
Qed.

Lemma loop_preserves st properties tot suppl s :
  let s' := (Stmt.for_each (loop_body st properties tot) suppl s).2 in
  (length (X s) = length (Y s) → length (X s') = length (Y s'))
  ∧ rng s' = rng s ∧ saved s' = saved s.
Proof.
  revert s. induction suppl as [|mol suppl IH]; intros s; [done |].
  rewrite for_each_cons.
  pose proof (loop_body_preserves st properties tot mol s) as H.
  destruct (loop_body st properties tot mol s) as [[[]|e] s1]; cbn [snd] in H |- *.
  - specialize (IH s1). cbn zeta in IH.
    destruct H as (H1 & H2 & H3), IH as (I1 & I2 & I3).
    split; [auto | split; etrans; eauto].
  - exact H.
Qed.

(** *** The shuffle *)

Lemma transpose_involutive i j k : transpose i j (transpose i j k) = k.
Proof. unfold transpose. repeat case_decide; congruence. Qed.

Lemma swap_length {A} (x : list A) i j x' : swap x i j = Ok x' → length x' = length x.
Proof.
  unfold swap. destruct (x !! j), (x !! i); intros [= <-].
  by rewrite !length_insert.
Qed.

Lemma swap_lookup {A} (x : list A) i j x' k :
  swap x i j = Ok x' → x' !! k = x !! transpose i j k.
Proof.
  unfold swap. destruct (x !! j) as [xj|] eqn:Hj; [| done].
  destruct (x !! i) as [xi|] eqn:Hi; intros [= <-].
  pose proof (lookup_lt_Some _ _ _ Hi). pose proof (lookup_lt_Some _ _ _ Hj).
  unfold transpose. rewrite !list_lookup_insert, !length_insert.
  repeat case_decide; destruct_and?; simplify_eq; try done; try lia.
  all: exfalso; naive_solver lia.
Qed.

Lemma swap_Permutation {A} (x : list A) i j x' : swap x i j = Ok x' → x' ≡ₚ x.
Proof.
  intros H. apply Permutation_inj. split; [by eapply swap_length |].
  exists (transpose i j). split.
  - intros a b Hab. by rewrite <- (transpose_involutive i j a), Hab, transpose_involutive.
  - intros k. by eapply swap_lookup.
Qed.

Lemma swap_in_range {A} (x : list A) i j :
  i < length x → j < length x → ∃ x', swap x i j = Ok x'.
Proof.
  intros [xi Hi]%lookup_lt_is_Some [xj Hj]%lookup_lt_is_Some.
  unfold swap. rewrite Hi, Hj. eauto.
Qed.

(** Swapping two elements of a list swaps the indices they came from. *)
Lemma swap_reindex {A} (x0 x x' : list A) (σ : list nat) i j :
  Forall2 (λ k a, x0 !! k = Some a) σ x →
  swap x i j = Ok x' →
  ∃ σ', swap σ i j = Ok σ' ∧ Forall2 (λ k a, x0 !! k = Some a) σ' x'.
Proof.
  intros Hσ. unfold swap.
  destruct (x !! j) as [xj|] eqn:Hj; [| done].
  destruct (x !! i) as [xi|] eqn:Hi; intros [= <-].
  destruct (Forall2_lookup_r _ _ _ _ _ Hσ Hj) as (sj & -> & Hsj).
  destruct (Forall2_lookup_r _ _ _ _ _ Hσ Hi) as (si & -> & Hsi).
  eexists. split; [done |]. by repeat apply Forall2_insert.
Qed.

Lemma shuffle_steps_reindex {A} (x0 : list A) indices :
  ∀ (x : list A) (σ : list nat) g x' g',
  Forall2 (λ k a, x0 !! k = Some a) σ x →
  shuffle_steps indices x g = (Ok x', g') →
  ∃ σ', σ' ≡ₚ σ ∧ Forall2 (λ k a, x0 !! k = Some a) σ' x'.
Proof.
  induction indices as [|i rest IH]; intros x σ g x' g' Hσ.
  - intros [= <- <-]. by exists σ.
  - cbn [shuffle_steps]. destruct (randbelow g (i + 1)) as [j g1].
    destruct (swap x i j) as [x1|e] eqn:Hswap; [| done].
    destruct (swap_reindex _ _ _ _ _ _ Hσ Hswap) as (σ1 & Hσ1 & HF).
    intros Hrest. destruct (IH _ _ _ _ _ HF Hrest) as (σ' & Hp & HF').
    exists σ'. split; [| done]. rewrite Hp. by eapply swap_Permutation.
Qed.

Lemma identity_index {A} (x : list A) :
  Forall2 (λ k a, x !! k = Some a) (seq 0 (length x)) x.
Proof.
  apply Forall2_same_length_lookup. split; [by rewrite length_seq |].
  intros i k a [-> _]%lookup_seq Ha. exact Ha.
Qed.

(** A shuffle that completes reads the list through a permutation of its
    indices. *)
Lemma shuffle_reindex {A} (x : list A) g x' g' :
  shuffle x g = (Ok x', g') →
  ∃ σ, σ ≡ₚ seq 0 (length x) ∧ Forall2 (λ k a, x !! k = Some a) σ x'.
Proof. apply shuffle_steps_reindex, identity_index. Qed.

Lemma shuffle_steps_Permutation {A} indices :
  ∀ (x : list A) g x' g', shuffle_steps indices x g = (Ok x', g') → x' ≡ₚ x.
Proof.
  induction indices as [|i rest IH]; intros x g x' g'.
  - by intros [= <- <-].
  - cbn [shuffle_steps]. destruct (randbelow g (i + 1)) as [j g1].
    destruct (swap x i j) as [x1|e] eqn:Hswap; [| done].
    intros Hrest. rewrite (IH _ _ _ _ Hrest). by eapply swap_Permutation.
Qed.

Lemma shuffle_Permutation {A} (x : list A) g x' g' :
  shuffle x g = (Ok x', g') → x' ≡ₚ x.
Proof. apply shuffle_steps_Permutation. Qed.

(** With draws in range, as [random] promises, the shuffle completes. *)
Lemma shuffle_steps_total {A} indices :
  (∀ g n, 0 < n → (randbelow g n).1 < n) →
  ∀ (x : list A) g, Forall (λ i, i < length x) indices →
  ∃ x' g', shuffle_steps indices x g = (Ok x', g').
Proof.
  intros Hr. induction indices as [|i rest IH]; intros x g Hin.
  - by exists x, g.
  - apply Forall_cons in Hin as [Hi Hrest].
    cbn [shuffle_steps]. specialize (Hr g (i + 1)).
    destruct (randbelow g (i + 1)) as [j g1]. cbn in Hr.
    destruct (swap_in_range x i j) as [x1 Hx1]; [lia.. |].
    rewrite Hx1. apply IH. by rewrite (swap_length _ _ _ _ Hx1).
Qed.

Lemma shuffle_total {A} (x : list A) g :
  (∀ g n, 0 < n → (randbelow g n).1 < n) →
  ∃ x' g', shuffle x g = (Ok x', g').
Proof.
  intros Hr. apply shuffle_steps_total; [done |].
  apply Forall_forall. intros i. unfold shuffle_indices.
  rewrite list_elem_of_In, <- in_rev, <- list_elem_of_In, elem_of_seq. lia.
Qed.


(** *** The function, phase by phase *)

Lemma collect_run st properties suppl s :
  collect st properties suppl s
  = Stmt.for_each (loop_body st properties (length suppl)) suppl (init_vars s).
Proof. reflexivity. Qed.

Lemma shuffle_and_save_run sdf st properties npz s :
  length (X s) = length (Y s) →
  shuffle_and_save sdf st properties npz s =
  let s1 := emit (LogDebug (length (X s)) (length (Y s)) (length (zip (X s) (Y s)))) s in
  match shuffle (zip (X s) (Y s)) (rng s) with
  | (Ok [], g') => (Raise unpack_error, set_rng g' s1)
  | (Ok mols, g') =>
      (Ok tt,
       savez (mkNpz (output_path sdf st npz) mols.*1 mols.*2)
         (emit (LogInfo (length mols) properties)
            (set_Y (λ _, mols.*2) (set_X (λ _, mols.*1) (set_rng g' s1)))))
  | (Raise e, g') => (Raise e, set_rng g' s1)
  end.
Proof.
  intros Hlen. unfold shuffle_and_save. run. unfold py_assert.
  cbn [X Y emit]. rewrite length_zip, <- Hlen, Nat.min_id, Nat.eqb_refl.
  cbn [andb]. run. unfold random_shuffle. cbn [rng emit].
  destruct (shuffle (zip (X s) (Y s)) (rng s)) as [[[|p mols]|e] g']; reflexivity.
Qed.

Lemma convert_run sdf st properties npz s :
  convert_sdf_to_npz sdf st properties npz s =
  match collect st properties (SDMolSupplier sdf) (emit (PrintStart sdf st properties) s) with
  | (Ok _, s1) => shuffle_and_save sdf st properties npz s1
  | (Raise e, s1) => (Raise e, s1)
  end.
Proof. reflexivity. Qed.

Lemma collect_preserves st properties suppl s :
  let s' := (collect st properties suppl s).2 in
  length (X s') = length (Y s') ∧ rng s' = rng s ∧ saved s' = saved s.
Proof.
  rewrite collect_run.
  destruct (loop_preserves st properties (length suppl) suppl (init_vars s))
    as (H1 & H2 & H3).
  split; [by apply H1 | by split].
Qed.


Lemma collect_slots st props suppl s s' :
  collect st (Some props) suppl s = (Ok tt, s') →
  ∃ slots, Forall2 (contributes st props) suppl slots
    ∧ X s' = (pairs_of slots).*1 ∧ Y s' = (pairs_of slots).*2
    ∧ counter s' = length suppl.
Proof.
  rewrite collect_run. intros H.
  destruct (loop_slots _ _ _ _ _ _ H) as (slots & Hs & HX & HY & Hc).
  exists slots. auto.
Qed.

Lemma encode_fingerprints smile x :
  encode default_struct_type smile = Ok x →
  ∃ m', MolFromSmiles smile = Some m' ∧ x = Fingerprint (RDKFingerprint m').
Proof.
  unfold encode, default_struct_type, convert_smiles_into_fingerprints. cbn.
  destruct (MolFromSmiles smile) as [m'|]; intros [= <-]. eauto.
Qed.

(** C3: with [struct_type] at its default, ['fingerprints'], the structure
    stored for every included record is the list of bits of
    [RDKFingerprint] of the molecule that [MolFromSmiles] reads back from
    [MolToSmiles] of the record's molecule. *)
Theorem fingerprints_of_canonical_smiles props suppl s s' :
  collect default_struct_type (Some props) suppl s = (Ok tt, s') →
  ∃ slots, Forall2 (fingerprint_slot props) suppl slots
    ∧ X s' = (pairs_of slots).*1.
Proof.
  intros H. destruct (collect_slots _ _ _ _ _ H) as (slots & Hs & HX & _).
  exists slots. split; [| done].
  eapply Forall2_impl; [exact Hs |].
  intros mol slot [Hiff Hpair]. split; [exact Hiff |].
  intros x y Hxy. destruct (Hpair x y Hxy) as (m & -> & Henc & _).
  destruct (encode_fingerprints _ _ Henc) as (m' & ? & ?). eauto.
Qed.

(** *** Exceptions that can leave the loop *)

Lemma encode_raises st smile e :
  encode st smile = Raise e →
  e = null_fingerprint_error ∨ e = null_image_error ∨ e = unknown_struct_type.
Proof.
  unfold encode, convert_smiles_into_fingerprints,
    convert_smiles_into_2d_structure_images.
  repeat case_match; intros; simplify_eq; auto.
Qed.

Lemma try_body_raises st properties mol s e s1 :
  try_body st properties mol s = (Raise e, s1) →
  s1 = s ∧ (e = none_has_no_props ∨ e = none_not_iterable ∨ e = null_fingerprint_error
            ∨ e = null_image_error ∨ e = unknown_struct_type).
Proof.
  destruct properties as [props|].
  - pose proof (try_body_cases st props mol s) as H.
    destruct mol as [m|]; [| rewrite H; intros [= <- <-]; auto].
    case_bool_decide.
    + destruct (encode st (MolToSmiles m)) as [x|e'] eqn:Henc.
      * destruct H as (row & _ & ->). intros [=].
      * rewrite H. intros [= <- <-]. split; [done |].
        destruct (encode_raises _ _ _ Henc) as [-> | [-> | ->]]; auto 10.
    + rewrite H. intros [=].
  - rewrite try_body_no_properties. intros [= <- <-]. destruct mol; auto.
Qed.

Lemma loop_never_asserts st properties tot suppl s :
  (Stmt.for_each (loop_body st properties tot) suppl s).1 ≠ Raise AssertionError.
Proof.
  revert s. induction suppl as [|mol suppl IH]; intros s; [done |].
  rewrite for_each_cons, loop_body_run.
  destruct (try_body st properties mol s) as [[[]|e] s1] eqn:Hb; [apply IH |].
  destruct (is_AttributeError e) eqn:He; [apply IH |].
  apply try_body_raises in Hb as (_ & Hb). cbn. intros [= ->].
  destruct Hb as [? | [? | [? | [? | ?]]]]; discriminate.
Qed.

Lemma shuffle_and_save_never_asserts sdf st properties npz s :
  length (X s) = length (Y s) →
  (shuffle_and_save sdf st properties npz s).1 ≠ Raise AssertionError.
Proof.
  intros Hlen. rewrite shuffle_and_save_run by done. cbn zeta.
  destruct (shuffle _ _) as [[[|p mols]|e] g'] eqn:Hsh; [done.. |].
  cbn. intros [= ->]. revert Hsh. unfold shuffle.
  generalize (shuffle_indices (length (zip (X s) (Y s)))) as indices.
  generalize (zip (X s) (Y s)) as x. generalize (rng s) as g.
  intros g x indices. revert g x.
  induction indices as [|i rest IH]; intros g x; [done |].
  cbn [shuffle_steps]. destruct (randbelow g (i + 1)) as [j g1].
  destruct (swap x i j) as [x1|e] eqn:Hswap; [apply IH |].
  unfold swap in Hswap. destruct (x !! j), (x !! i); by simplify_eq.
Qed.

(** C5: for every input, [X] and [Y] have the same length when the loop is
    left (each included record appended once to each), the list of their
    pairs has that length too, and the call never ends in an
    [AssertionError]. *)
Theorem assertion_never_fails sdf st properties npz s :
  let s1 := (collect st properties (SDMolSupplier sdf)
               (emit (PrintStart sdf st properties) s)).2 in
  length (X s1) = length (Y s1)
  ∧ length (Y s1) = length (zip (X s1) (Y s1))
  ∧ (convert_sdf_to_npz sdf st properties npz s).1 ≠ Raise AssertionError.
Proof.
  intros s1.
  destruct (collect_preserves st properties (SDMolSupplier sdf)
              (emit (PrintStart sdf st properties) s)) as (Hlen & _).
  fold s1 in Hlen. split; [exact Hlen |]. split.
  { rewrite length_zip. lia. }
  rewrite convert_run.
  pose proof (loop_never_asserts st properties (length (SDMolSupplier sdf))
                (SDMolSupplier sdf)
                (init_vars (emit (PrintStart sdf st properties) s))) as Hloop.
  rewrite <- collect_run in Hloop. subst s1.
  destruct (collect _ _ _ _) as [[[]|e] s2]; [| exact Hloop].
  by apply shuffle_and_save_never_asserts.
Qed.


(** *** Records that are skipped *)

Lemma loop_body_skip st props tot mol s :
  ¬ qualifies props mol →
  ∃ s', loop_body st (Some props) tot mol s = (Ok tt, s')
        ∧ X s' = X s ∧ Y s' = Y s.
Proof.
  intros Hq. rewrite loop_body_run.
  pose proof (try_body_cases st props mol s) as Hb.
  destruct mol as [m|].
  - case_bool_decide as Hsub; [by apply qualifies_subset in Hsub |].
    rewrite Hb. eexists. split; [done |].
    destruct (next_record_fields tot s) as (? & ? & _). done.
  - rewrite Hb. change (is_AttributeError none_has_no_props) with true. cbv iota.
    eexists. split; [done |].
    destruct (skip_record_fields tot none_has_no_props s) as (? & ? & _). done.
Qed.

Lemma loop_none_qualify st props tot suppl s :
  Forall (λ mol, ¬ qualifies props mol) suppl →
  ∃ s', Stmt.for_each (loop_body st (Some props) tot) suppl s = (Ok tt, s')
        ∧ X s' = X s ∧ Y s' = Y s.
Proof.
  intros H. revert s. induction H as [|mol suppl Hq _ IH]; intros s.
  - by exists s.
  - rewrite for_each_cons.
    destruct (loop_body_skip st props tot mol s Hq) as (s1 & -> & HX & HY).
    destruct (IH s1) as (s' & -> & HX' & HY').
    exists s'. split; [done |]. split; congruence.
Qed.

Lemma encode_unknown st smile :
  st ≠ "fingerprints" → st ≠ "2Dimg" → encode st smile = Raise unknown_struct_type.
Proof.
  intros H1%String.eqb_neq H2%String.eqb_neq. unfold encode. by rewrite H1, H2.
Qed.

Lemma loop_unknown_struct_type st props tot suppl s :
  st ≠ "fingerprints" → st ≠ "2Dimg" →
  Exists (qualifies props) suppl →
  (Stmt.for_each (loop_body st (Some props) tot) suppl s).1 = Raise unknown_struct_type.
Proof.
  intros H1 H2 Hex. revert s.
  induction suppl as [|mol suppl IH]; intros s; [by apply Exists_nil in Hex |].
  rewrite for_each_cons, loop_body_run.
  pose proof (try_body_cases st props mol s) as Hb.
  assert (Hrest : ¬ qualifies props mol →
    ∀ s1, (Stmt.for_each (loop_body st (Some props) tot) suppl s1).1
          = Raise unknown_struct_type).
  { intros Hq. apply IH. apply Exists_cons in Hex as [?|?]; done. }
  destruct mol as [m|].
  - case_bool_decide as Hsub.
    + by rewrite (encode_unknown _ _ H1 H2) in Hb; rewrite Hb.
    + rewrite Hb. apply Hrest. by rewrite qualifies_subset.
  - rewrite Hb. apply Hrest, not_qualifies_None.
Qed.

Lemma loop_counter st properties tot suppl s s' :
  Stmt.for_each (loop_body st properties tot) suppl s = (Ok tt, s') →
  counter s' = (counter s + length suppl)%nat.
Proof.
  revert s. induction suppl as [|mol suppl IH]; intros s.
  - intros [= <-]. cbn. lia.
  - rewrite for_each_cons, loop_body_run.
    pose proof (try_body_outcome st properties mol s) as Ho.
    destruct (try_body st properties mol s) as [[[]|e] s1].
    + intros ->%IH. destruct (next_record_fields tot s1) as (_ & _ & -> & _).
      cbn [length]. destruct Ho as [-> | (_ & x & row & ->)]; cbn; lia.
    + destruct Ho as [-> | ([=] & _)].
      destruct (is_AttributeError e); [| done].
      intros ->%IH. destruct (skip_record_fields tot e s) as (_ & _ & -> & _).
      cbn [length]. lia.
Qed.

(** *** What a completed call saved *)

Lemma convert_saves sdf st properties npz s s' :
  convert_sdf_to_npz sdf st properties npz s = (Ok tt, s') →
  let s1 := (collect st properties (SDMolSupplier sdf)
               (emit (PrintStart sdf st properties) s)).2 in
  ∃ mols g', shuffle (zip (X s1) (Y s1)) (rng s1) = (Ok mols, g')
    ∧ mols ≠ []
    ∧ saved s' = saved s ++ [mkNpz (output_path sdf st npz) mols.*1 mols.*2].
Proof.
  rewrite convert_run.
  destruct (collect_preserves st properties (SDMolSupplier sdf)
              (emit (PrintStart sdf st properties) s)) as (Hlen & _ & Hsaved).
  destruct (collect _ _ _ _) as [[[]|e] s1]; [| done].
  cbn [snd] in *. rewrite shuffle_and_save_run by done. cbn zeta.
  destruct (shuffle _ _) as [[[|p mols]|e] g']; [done | | done].
  intros [= <-]. exists (p :: mols), g'. split; [done |]. split; [done |].
  cbn [saved savez emit set_X set_Y set_rng]. by rewrite Hsaved.
Qed.

Lemma convert_raise_saves_nothing sdf st properties npz s e :
  (convert_sdf_to_npz sdf st properties npz s).1 = Raise e →
  saved (convert_sdf_to_npz sdf st properties npz s).2 = saved s.
Proof.
  rewrite convert_run.
  destruct (collect_preserves st properties (SDMolSupplier sdf)
              (emit (PrintStart sdf st properties) s)) as (Hlen & _ & Hsaved).
  destruct (collect _ _ _ _) as [[[]|e'] s1]; [| done].
  cbn [snd] in *. rewrite shuffle_and_save_run by done. cbn zeta.
  destruct (shuffle _ _) as [[[|p mols]|e'] g']; done.
Qed.

(** C2: when a call completes it has saved one file whose arrays [x] and
    [y] have the same length and are the filtered lists [X] and [Y] read
    through one and the same permutation of their indices; so the saved
    pairs are a permutation of the filtered pairs. *)
Theorem saved_arrays_share_one_permutation sdf st properties npz s s' :
  convert_sdf_to_npz sdf st properties npz s = (Ok tt, s') →
  let s1 := (collect st properties (SDMolSupplier sdf)
               (emit (PrintStart sdf st properties) s)).2 in
  ∃ f σ, saved s' = saved s ++ [f]
    ∧ length (npz_x f) = length (npz_y f)
    ∧ σ ≡ₚ seq 0 (length (zip (X s1) (Y s1)))
    ∧ Forall2 (λ i x, X s1 !! i = Some x) σ (npz_x f)
    ∧ Forall2 (λ i y, Y s1 !! i = Some y) σ (npz_y f)
    ∧ zip (npz_x f) (npz_y f) ≡ₚ zip (X s1) (Y s1).
Proof.
  intros H s1. destruct (convert_saves _ _ _ _ _ _ H) as (mols & g' & Hsh & _ & Hsaved).
  fold s1 in Hsh.
  destruct (shuffle_reindex _ _ _ _ Hsh) as (σ & Hσ & HF).
  eexists _, σ. split; [exact Hsaved |]. cbn [npz_x npz_y].
  split; [by rewrite !length_fmap |]. split; [exact Hσ |].
  split; [| split].
  - apply Forall2_fmap_r. eapply Forall2_impl; [exact HF |].
    intros i [x y] (? & ? & [= <- <-] & ? & _)%lookup_zip_with_Some. done.
  - apply Forall2_fmap_r. eapply Forall2_impl; [exact HF |].
    intros i [x y] (? & ? & [= <- <-] & _ & ?)%lookup_zip_with_Some. done.
  - rewrite zip_fst_snd. by eapply shuffle_Permutation.
Qed.

(** C8, as amended: when a call completes, the path it handed to
    [np.savez] is, if [npz_file_path] is [None], [sdf_file_path] with every
    occurrence of ['.sdf'] replaced by ['_<struct_type>.npz'], and, if
    [npz_file_path] is a non-empty string, that string. *)
Theorem output_path_choice sdf st properties npz s s' :
  convert_sdf_to_npz sdf st properties npz s = (Ok tt, s') →
  ∃ f, saved s' = saved s ++ [f]
    ∧ (npz = None →
       npz_path f = str_replace sdf ".sdf" ("_" +:+ st +:+ ".npz")
       ∧ replaced_all ".sdf" ("_" +:+ st +:+ ".npz") sdf (npz_path f))
    ∧ (∀ p, npz = Some p → p ≠ "" → npz_path f = p).
Proof.
  intros H. destruct (convert_saves _ _ _ _ _ _ H) as (mols & g' & _ & _ & Hsaved).
  eexists. split; [exact Hsaved |]. cbn [npz_path]. unfold output_path. split.
  - intros ->. split; [done |]. by apply str_replace_spec.
  - intros p -> Hp. by destruct p.
Qed.

(** With no pair collected, the unpacking on line 90 raises. *)
Lemma convert_nothing_to_unpack sdf st props npz s :
  Forall (λ mol, ¬ qualifies props mol) (SDMolSupplier sdf) →
  (convert_sdf_to_npz sdf st (Some props) npz s).1 = Raise unpack_error.
Proof.
  intros Hall. rewrite convert_run, collect_run.
  destruct (loop_none_qualify st props (length (SDMolSupplier sdf)) _
              (init_vars (emit (PrintStart sdf st (Some props)) s)) Hall)
    as (s1 & -> & HX & HY).
  rewrite shuffle_and_save_run by (by rewrite HX, HY).
  cbn zeta. by rewrite HX, HY.
Qed.

(** C9, as amended: with a list of properties, if no record of the file
    passes the property filter, the call raises the [ValueError] of
    unpacking the empty list of pairs, and saves nothing. *)
Theorem no_record_passes_raises sdf st props npz s :
  Forall (λ mol, ¬ qualifies props mol) (SDMolSupplier sdf) →
  let r := convert_sdf_to_npz sdf st (Some props) npz s in
  r.1 = Raise unpack_error ∧ saved r.2 = saved s.
Proof.
  intros Hall r.
  assert (r.1 = Raise unpack_error) as Hr by (by apply convert_nothing_to_unpack).
  split; [done |]. by eapply convert_raise_saves_nothing.
Qed.

(** C4, as amended: for a [struct_type] other than ['fingerprints'] and
    ['2Dimg'] and a list of properties, the call saves nothing; it raises
    the [NameError] saying that the structure type does not exist when some
    record passes the property filter, and the [ValueError] of the
    unpacking when none does. *)
Theorem unknown_struct_type_outcome sdf st props npz s :
  st ≠ "fingerprints" → st ≠ "2Dimg" →
  let r := convert_sdf_to_npz sdf st (Some props) npz s in
  saved r.2 = saved s
  ∧ (Exists (qualifies props) (SDMolSupplier sdf) → r.1 = Raise unknown_struct_type)
  ∧ (Forall (λ mol, ¬ qualifies props mol) (SDMolSupplier sdf) →
     r.1 = Raise unpack_error).
Proof.
  intros H1 H2 r.
  assert (Hex : Exists (qualifies props) (SDMolSupplier sdf) →
                r.1 = Raise unknown_struct_type).
  { intros Hex. subst r. rewrite convert_run, collect_run.
    pose proof (loop_unknown_struct_type st props (length (SDMolSupplier sdf)) _
      (init_vars (emit (PrintStart sdf st (Some props)) s)) H1 H2 Hex) as Hl.
    by destruct (Stmt.for_each _ _ _) as [[[]|e] s1]. }
  assert (Hall : Forall (λ mol, ¬ qualifies props mol) (SDMolSupplier sdf) →
                 r.1 = Raise unpack_error).
  { intros Hall. by apply convert_nothing_to_unpack. }
  split; [| by split].
  destruct (r.1) as [[]|e] eqn:Hr; [| by eapply convert_raise_saves_nothing].
  exfalso.
  assert (Hdec : ∀ mol, Decision (qualifies props mol)).
  { intros [m|]; [| right; apply not_qualifies_None].
    destruct (decide (list_to_set (C := gset string) props ⊆ dom (GetPropsAsDict m)));
      [left | right]; by rewrite qualifies_subset. }
  destruct (decide (Exists (qualifies props) (SDMolSupplier sdf))) as [Hex'|Hn].
  - by specialize (Hex Hex').
  - apply not_Exists_Forall in Hn; [| done]. by specialize (Hall Hn).
Qed.

End Conversion.

(** ** The accuracy report *)

Lemma mask_value_thresholded (p : Q) : mask_value p = thresholded p.
Proof.
  unfold mask_value, thresholded.
  destruct (Qle_bool p (1 # 2)) eqn:Hle, (Qlt_le_dec (1 # 2) p) as [Hlt|Hge];
    try reflexivity.
  - apply Qle_bool_iff in Hle. exfalso. by eapply Qlt_not_le.
  - apply Qle_bool_iff in Hge. congruence.
Qed.

Lemma thresholded_spec (p : Q) :
  (thresholded p = 1%Q ↔ (1 # 2 < p)%Q) ∧ (thresholded p = 0%Q ↔ ¬ (1 # 2 < p)%Q).
Proof.
  unfold thresholded. destruct (Qlt_le_dec (1 # 2) p) as [Hlt|Hge].
  - split; split; intros H; [exact Hlt | reflexivity | discriminate H | by destruct H].
  - assert (¬ (1 # 2 < p)%Q) as Hn by (by apply Qle_not_lt).
    split; split; intros H; [discriminate H | by destruct Hn | exact Hn | reflexivity].
Qed.

Lemma item_mask (a : ndarray) (j i : nat) (r : list Q) (p : Q) :
  rows a !! j = Some r → r !! i = Some p → item (mask a) j i = Ok (mask_value p).
Proof.
  intros Hr Hp. unfold item, mask. cbn [rows].
  change (map (map mask_value) (rows a)) with (map mask_value <$> rows a).
  rewrite list_lookup_fmap, Hr. cbn.
  change (map mask_value r) with (mask_value <$> r).
  by rewrite list_lookup_fmap, Hp.
Qed.

Lemma count_right_hits (y_pred y_test : ndarray) (i : nat) :
  well_shaped y_pred → well_shaped y_test → shape y_pred = shape y_test →
  (i < (shape y_pred).2)%nat →
  ∀ js right, Forall (λ j, j < (shape y_pred).1)%nat js →
  count_right (mask y_pred) y_test i js right
  = Ok (right + length (List.filter (hit y_pred y_test i) js))%nat.
Proof.
  intros [Hp1 Hp2] [Ht1 Ht2] Hshape Hi js.
  induction js as [|j js IH]; intros right Hjs.
  - cbn. f_equal. lia.
  - apply Forall_cons in Hjs as [Hj Hjs]. cbn [count_right List.filter].
    destruct (lookup_lt_is_Some_2 (rows y_pred) j) as [rp Hrp]; [lia |].
    destruct (lookup_lt_is_Some_2 (rows y_test) j) as [rt Hrt];
      [rewrite Ht1, <- Hshape; lia |].
    destruct (lookup_lt_is_Some_2 rp i) as [p Hpv].
    { rewrite Forall_forall in Hp2. rewrite (Hp2 rp); [lia |].
      by eapply list_elem_of_lookup_2. }
    destruct (lookup_lt_is_Some_2 rt i) as [t Htv].
    { rewrite Forall_forall in Ht2. rewrite (Ht2 rt); [rewrite <- Hshape; lia |].
      by eapply list_elem_of_lookup_2. }
    rewrite (item_mask _ _ _ _ _ Hrp Hpv).
    unfold item at 1. rewrite Hrt, Htv.
    assert (hit y_pred y_test i j = Qeq_bool (mask_value p) t) as Hhit.
    { unfold hit. rewrite lookup_zip_with, Hrp, Hrt. cbn.
      unfold agrees. cbn. by rewrite Hpv, Htv, mask_value_thresholded. }
    rewrite Hhit, IH by done.
    destruct (Qeq_bool (mask_value p) t); cbn [length]; f_equal; lia.
Qed.

Lemma filter_by_index {A} (g : A → bool) (l : list A) (k : nat) :
  length (List.filter
            (λ j, match l !! (j - k)%nat with Some x => g x | None => false end)
            (seq k (length l)))
  = length (List.filter g l).
Proof.
  revert k. induction l as [|x l IH]; intros k; [done |].
  cbn [length seq List.filter]. rewrite Nat.sub_diag. cbn [lookup list_lookup].
  assert (List.filter
            (λ j, match (x :: l) !! (j - k)%nat with Some y => g y | None => false end)
            (seq (S k) (length l))
          = List.filter
            (λ j, match l !! (j - S k)%nat with Some y => g y | None => false end)
            (seq (S k) (length l))) as ->.
  { apply List.filter_ext_in. intros j Hj%in_seq.
    replace (j - k)%nat with (S (j - S k)) by lia. done. }
  destruct (g x); cbn [length]; by rewrite IH.
Qed.

Lemma hits_by_rows (y_pred y_test : ndarray) (i : nat) :
  length (rows y_pred) = length (rows y_test) →
  length (List.filter (hit y_pred y_test i) (seq 0 (length (rows y_pred))))
  = length (List.filter (agrees i) (zip (rows y_pred) (rows y_test))).
Proof.
  intros Hlen. rewrite <- (filter_by_index (agrees i) _ 0).
  rewrite length_zip, <- Hlen, Nat.min_id.
  f_equal. apply List.filter_ext. intros j. unfold hit. by rewrite Nat.sub_0_r.
Qed.

Lemma class_name_known (i : nat) :
  (i < 3)%nat → class_name i = Ok (classes !!! i).
Proof.
  intros Hi. destruct i as [|[|[|i]]]; [reflexivity.. | lia].
Qed.

Lemma accuracy_steps (y_pred y_test : ndarray) :
  well_shaped y_pred → well_shaped y_test → shape y_pred = shape y_test →
  (0 < (shape y_pred).1)%nat →
  ∀ columns out,
  Forall (λ i, i < (shape y_pred).2 ∧ i < 3)%nat columns →
  Stmt.for_each (λ i,
    right ← Stmt.lift (count_right (mask y_pred) y_test i
                         (seq 0 (shape y_pred).1) 0);
    accuracy ← Stmt.lift (true_div right (shape y_pred).1);
    class ← Stmt.lift (class_name i);
    Stmt.modify (λ out, out ++ [PrintAccuracy class accuracy])) columns out
  = (Ok tt,
     out ++ map (λ i, PrintAccuracy (classes !!! i)
                        (per_class_accuracy y_pred y_test i)) columns).
Proof.
  intros Hp Ht Hshape Hrows columns.
  induction columns as [|i columns IH]; intros out Hcols.
  - cbn. by rewrite app_nil_r.
  - apply Forall_cons in Hcols as [[Hi1 Hi2] Hcols].
    rewrite for_each_cons. run.
    rewrite (count_right_hits y_pred y_test i Hp Ht Hshape Hi1).
    2: { apply Forall_forall. intros j Hj%elem_of_seq. lia. }
    destruct Hp as [Hp1 Hp2], Ht as [Ht1 Ht2].
    rewrite <- Hp1 at 1. rewrite hits_by_rows by (rewrite Hp1, Ht1; by f_equal).
    destruct (shape y_pred).1 as [|n] eqn:Hn; [lia |].
    cbn [true_div Nat.add]. rewrite class_name_known by done.
    rewrite IH by done. cbn [map]. rewrite <- app_assoc. cbn [app].
    unfold per_class_accuracy. by rewrite Ht1, <- Hshape, Hn.
Qed.

Lemma accuracy_report_run (y_pred y_test : ndarray) (out : list line) :
  well_shaped y_pred → well_shaped y_test → shape y_pred = shape y_test →
  (0 < (shape y_pred).1)%nat → ((shape y_pred).2 ≤ 3)%nat →
  accuracy_report (mask y_pred) y_test (shape y_pred).1 out
  = (Ok tt, out ++ accuracy_lines y_pred y_test).
Proof.
  intros Hp Ht Hshape Hrows Hcols. unfold accuracy_report, accuracy_lines.
  cbn [mask shape]. apply accuracy_steps; try done.
  apply Forall_forall. intros i Hi%elem_of_seq. lia.
Qed.

(** A loop whose steps only print leaves what was printed before in place. *)
Lemma for_each_appends {A} (f : A → M (list line) unit) :
  (∀ a out, ∃ more, (f a out).2 = out ++ more) →
  ∀ l out, ∃ more, (Stmt.for_each f l out).2 = out ++ more.
Proof.
  intros Hf l. induction l as [|a l IH]; intros out.
  - exists []. cbn. by rewrite app_nil_r.
  - rewrite for_each_cons. destruct (Hf a out) as [more1 H1].
    destruct (f a out) as [[[]|e] out1]; cbn [snd] in H1; subst out1.
    + destruct (IH (out ++ more1)) as [more2 ->].
      exists (more1 ++ more2). by rewrite app_assoc.
    + by exists more1.
Qed.

Lemma f1_report_appends fbeta_score (y_pred y_test : ndarray) (out : list line) :
  ∃ more, (f1_report fbeta_score y_pred y_test out).2 = out ++ more.
Proof.
  apply for_each_appends. clear out. intros i out. run.
  destruct (column y_pred i); [| exists []; cbn; by rewrite app_nil_r].
  destruct (column y_test i); [| exists []; cbn; by rewrite app_nil_r].
  destruct (fbeta_score _ _); [| exists []; cbn; by rewrite app_nil_r].
  destruct (class_name i); [| exists []; cbn; by rewrite app_nil_r].
  by eexists [_].
Qed.

Lemma toy_arrays_well_shaped :
  well_shaped Toy.y_pred ∧ well_shaped Toy.y_test
  ∧ well_shaped Toy.y_pred4 ∧ well_shaped Toy.y_test4 ∧ well_shaped Toy.y_none.
Proof. repeat split; repeat constructor. Qed.

(** C7, as amended: for a prediction matrix and a test-label matrix of the
    same shape, with at least one row and at most three columns (the three
    class names of the function), [each_metric] prints, for each column [i]
    in order, the name of class [i] and the fraction of the test rows whose
    thresholded prediction (1 exactly when the raw prediction is strictly
    greater than one half, else 0) equals the label in column [i]; the
    separator and the F1 lines follow. *)
Theorem each_metric_reports_accuracy {I : Type} fbeta_score (input_data : I)
    (y_test : ndarray) (model_predict : I → ndarray) (out : list line) :
  let y_pred := model_predict input_data in
  well_shaped y_pred → well_shaped y_test → shape y_pred = shape y_test →
  (0 < (shape y_pred).1)%nat → ((shape y_pred).2 ≤ 3)%nat →
  (∀ p, (thresholded p = 1%Q ↔ (1 # 2 < p)%Q)
        ∧ (thresholded p = 0%Q ↔ ¬ (1 # 2 < p)%Q))
  ∧ ∃ rest,
      (each_metric fbeta_score input_data y_test model_predict out).2
      = out ++ accuracy_lines y_pred y_test ++ PrintRule :: rest.
Proof.
  intros y_pred Hp Ht Hshape Hrows Hcols. split; [apply thresholded_spec |].
  unfold each_metric. fold y_pred. run. cbn [mask shape].
  rewrite (accuracy_report_run y_pred y_test out Hp Ht Hshape Hrows Hcols).
  destruct (f1_report_appends fbeta_score (mask y_pred) y_test
              ((out ++ accuracy_lines y_pred y_test) ++ [PrintRule]))
    as [rest Hrest].
  exists rest. rewrite Hrest, <- !app_assoc. reflexivity.
Qed.

Lemma each_metric_reports_accuracy_witness :
  well_shaped Toy.y_pred ∧ well_shaped Toy.y_test
  ∧ shape Toy.y_pred = shape Toy.y_test
  ∧ (0 < (shape Toy.y_pred).1)%nat ∧ ((shape Toy.y_pred).2 ≤ 3)%nat
  ∧ ∃ rest,
      (each_metric Toy.f1_zero tt Toy.y_test (λ _, Toy.y_pred) []).2
      = [] ++ accuracy_lines Toy.y_pred Toy.y_test ++ PrintRule :: rest.
Proof.
  destruct toy_arrays_well_shaped as (Hp & Ht & _).
  assert (H1 : shape Toy.y_pred = shape Toy.y_test) by reflexivity.
  assert (H2 : (0 < (shape Toy.y_pred).1)%nat) by (cbn; lia).
  assert (H3 : ((shape Toy.y_pred).2 ≤ 3)%nat) by (cbn; lia).
  repeat (split; [assumption |]).
  exact (proj2 (each_metric_reports_accuracy Toy.f1_zero tt Toy.y_test
                  (λ _, Toy.y_pred) [] Hp Ht H1 H2 H3)).
Defined.

(** C7, as stated, fails on two inputs of the same shape.  With four
    columns the three named classes are reported and the fourth raises
    [IndexError]; with no row the first division raises
    [ZeroDivisionError] and nothing is reported. *)
Lemma each_metric_four_classes_or_no_rows :
  (well_shaped Toy.y_pred4 ∧ well_shaped Toy.y_test4
   ∧ shape Toy.y_pred4 = shape Toy.y_test4
   ∧ each_metric Toy.f1_zero tt Toy.y_test4 (λ _, Toy.y_pred4) []
     = (Raise IndexError,
        [PrintAccuracy "NR-AR" (1 # 1); PrintAccuracy "NR-ER-LBD" (1 # 1);
         PrintAccuracy "SR-ATAD5" (1 # 1)]))
  ∧ (well_shaped Toy.y_none
     ∧ each_metric Toy.f1_zero tt Toy.y_none (λ _, Toy.y_none) []
       = (Raise ZeroDivisionError, [])).
Proof.
  destruct toy_arrays_well_shaped as (_ & _ & H4 & H4' & H0).
  split.
  - split; [exact H4 |]. split; [exact H4' |]. split; [reflexivity |].
    vm_compute. reflexivity.
  - split; [exact H0 |]. vm_compute. reflexivity.
Qed.

(** ** When a call completes *)

Section Completion.
Context `{lib : Library}.

Lemma encode_parses st smile :
  st = "fingerprints" ∨ st = "2Dimg" →
  is_Some (MolFromSmiles smile) → ∃ x, encode st smile = Ok x.
Proof.
  intros Hst [m' Hm']. unfold encode, convert_smiles_into_fingerprints,
    convert_smiles_into_2d_structure_images. rewrite Hm'.
  destruct Hst as [-> | ->]; cbn; eauto.
Qed.

(** The loop completes when the structure type is one of the two and the
    canonical SMILES of every qualifying molecule parses back. *)
Lemma loop_completes st props tot suppl s :
  st = "fingerprints" ∨ st = "2Dimg" →
  Forall (λ mol, ∀ m, mol = Some m → qualifies props mol →
                      is_Some (MolFromSmiles (MolToSmiles m))) suppl →
  ∃ s', Stmt.for_each (loop_body st (Some props) tot) suppl s = (Ok tt, s').
Proof.
  intros Hst Hall. revert s. induction Hall as [|mol suppl Hmol _ IH]; intros s.
  - by exists s.
  - rewrite for_each_cons, loop_body_run.
    pose proof (try_body_cases st props mol s) as Hb.
    destruct mol as [m|].
    + case_bool_decide as Hsub.
      * destruct (encode_parses st (MolToSmiles m) Hst) as [x Hx].
        { apply Hmol; [done | by apply qualifies_subset]. }
        rewrite Hx in Hb. destruct Hb as (row & _ & ->). apply IH.
      * rewrite Hb. apply IH.
    + rewrite Hb. change (is_AttributeError none_has_no_props) with true.
      cbv iota. apply IH.
Qed.

Lemma slots_not_empty st props suppl slots :
  Forall2 (contributes st props) suppl slots →
  Exists (qualifies props) suppl → pairs_of slots ≠ [].
Proof.
  induction 1 as [|mol slot suppl slots [Hiff _] _ IH]; intros Hex.
  - by apply Exists_nil in Hex.
  - apply Exists_cons in Hex as [Hq | Hex].
    + apply Hiff in Hq as [p ->]. done.
    + unfold pairs_of in *. cbn. destruct slot; [done | by apply IH].
Qed.

(** X17: a call completes, and so saves a file, when the structure type is
    one of the two, the canonical SMILES of every qualifying molecule
    parses back, one record at least qualifies, and the draws of the
    generator are in range. *)
Lemma convert_completes sdf st props npz s :
  st = "fingerprints" ∨ st = "2Dimg" →
  Forall (λ mol, ∀ m, mol = Some m → qualifies props mol →
                      is_Some (MolFromSmiles (MolToSmiles m))) (SDMolSupplier sdf) →
  Exists (qualifies props) (SDMolSupplier sdf) →
  (∀ g n, 0 < n → (randbelow g n).1 < n)%nat →
  ∃ s', convert_sdf_to_npz sdf st (Some props) npz s = (Ok tt, s').
Proof.
  intros Hst Hall Hex Hrng. rewrite convert_run.
  destruct (collect_preserves st (Some props) (SDMolSupplier sdf)
              (emit (PrintStart sdf st (Some props)) s)) as (Hlen & _).
  rewrite collect_run in Hlen |- *.
  destruct (loop_completes st props (length (SDMolSupplier sdf)) _
              (init_vars (emit (PrintStart sdf st (Some props)) s)) Hst Hall)
    as [s1 Hs1].
  rewrite Hs1 in Hlen |- *. cbn [snd] in Hlen.
  destruct (loop_slots _ _ _ _ _ _ Hs1) as (slots & Hslots & HX & HY & _).
  rewrite shuffle_and_save_run by done. cbn zeta.
  destruct (shuffle_total (zip (X s1) (Y s1)) (rng s1) Hrng) as (mols & g' & Hsh).
  rewrite Hsh. destruct mols as [|p mols]; [| by eexists].
  apply shuffle_Permutation in Hsh. symmetry in Hsh.
  apply Permutation_nil_r in Hsh.
  apply (slots_not_empty _ _ _ _ Hslots) in Hex. exfalso. apply Hex.
  rewrite <- (zip_fst_snd (pairs_of slots)).
  cbn in HX, HY. by rewrite <- HX, <- HY.
Qed.

End Completion.

(** ** The statements at the small instance *)

#[local] Existing Instance Toy.library.

Lemma toy_unlabelled_none_qualifies :
  Forall (λ mol, ¬ qualifies (lib := Toy.library) Toy.requested mol)
         (SDMolSupplier "unlabelled.sdf").
Proof.
  change (SDMolSupplier (Library := Toy.library) "unlabelled.sdf")
    with [None; Some Toy.benzene : option (Mol (Library := Toy.library))].
  repeat constructor.
  - apply (not_qualifies_None (lib := Toy.library)).
  - intros (m & [= <-] & H). destruct (H "NR-AR") as [v Hv]; [by left |].
    vm_compute in Hv. discriminate Hv.
Qed.

Lemma fingerprints_of_canonical_smiles_witness :
  let r := collect (lib := Toy.library) default_struct_type (Some Toy.requested)
             (SDMolSupplier "toy.sdf") (fresh (lib := Toy.library) 0%nat) in
  r = (Ok tt, r.2)
  ∧ ∃ slots, Forall2 (fingerprint_slot Toy.requested) (SDMolSupplier "toy.sdf") slots
      ∧ X r.2 = (pairs_of slots).*1.
Proof.
  intros r. assert (H : r = (Ok tt, r.2)) by (vm_compute; reflexivity).
  split; [exact H |]. exact (fingerprints_of_canonical_smiles _ _ _ _ H).
Defined.

Lemma saved_arrays_share_one_permutation_witness :
  let s := fresh (lib := Toy.library) 0%nat in
  let r := convert_sdf_to_npz "toy.sdf" "fingerprints" (Some Toy.requested) None s in
  let s1 := (collect "fingerprints" (Some Toy.requested) (SDMolSupplier "toy.sdf")
               (emit (PrintStart "toy.sdf" "fingerprints" (Some Toy.requested)) s)).2 in
  r = (Ok tt, r.2)
  ∧ ∃ f σ, saved r.2 = saved s ++ [f]
      ∧ length (npz_x f) = length (npz_y f)
      ∧ σ ≡ₚ seq 0 (length (zip (X s1) (Y s1)))
      ∧ Forall2 (λ i x, X s1 !! i = Some x) σ (npz_x f)
      ∧ Forall2 (λ i y, Y s1 !! i = Some y) σ (npz_y f)
      ∧ zip (npz_x f) (npz_y f) ≡ₚ zip (X s1) (Y s1).
Proof.
  intros s r s1. assert (H : r = (Ok tt, r.2)) by (vm_compute; reflexivity).
  split; [exact H |]. exact (saved_arrays_share_one_permutation _ _ _ _ _ _ H).
Defined.

Lemma output_path_choice_witness :
  let s := fresh (lib := Toy.library) 0%nat in
  let r := convert_sdf_to_npz "toy.sdf" "2Dimg" (Some Toy.requested) None s in
  r = (Ok tt, r.2)
  ∧ ∃ f, saved r.2 = saved s ++ [f]
      ∧ (@None string = None →
         npz_path f = str_replace "toy.sdf" ".sdf" ("_" +:+ "2Dimg" +:+ ".npz")
         ∧ replaced_all ".sdf" ("_" +:+ "2Dimg" +:+ ".npz") "toy.sdf" (npz_path f))
      ∧ (∀ p, @None string = Some p → p ≠ "" → npz_path f = p).
Proof.
  intros s r. assert (H : r = (Ok tt, r.2)) by (vm_compute; reflexivity).
  split; [exact H |]. exact (output_path_choice _ _ _ _ _ _ H).
Defined.

Lemma no_record_passes_raises_witness :
  Forall (λ mol, ¬ qualifies (lib := Toy.library) Toy.requested mol)
         (SDMolSupplier "unlabelled.sdf")
  ∧ let r := convert_sdf_to_npz "unlabelled.sdf" "fingerprints"
               (Some Toy.requested) None (fresh (lib := Toy.library) 0%nat) in
    r.1 = Raise unpack_error ∧ saved r.2 = saved (fresh (lib := Toy.library) 0%nat).
Proof.
  split; [exact toy_unlabelled_none_qualifies |].
  exact (no_record_passes_raises "unlabelled.sdf" "fingerprints" Toy.requested
           None (fresh (lib := Toy.library) 0%nat) toy_unlabelled_none_qualifies).
Defined.

Lemma unknown_struct_type_outcome_witness :
  "smiles" ≠ "fingerprints" ∧ "smiles" ≠ "2Dimg"
  ∧ let r := convert_sdf_to_npz (lib := Toy.library) "toy.sdf" "smiles"
               (Some Toy.requested) None (fresh (lib := Toy.library) 0%nat) in
    saved r.2 = saved (fresh (lib := Toy.library) 0%nat)
    ∧ (Exists (qualifies Toy.requested) (SDMolSupplier "toy.sdf") →
       r.1 = Raise unknown_struct_type)
    ∧ (Forall (λ mol, ¬ qualifies Toy.requested mol) (SDMolSupplier "toy.sdf") →
       r.1 = Raise unpack_error).
Proof.
  assert (H1 : "smiles" ≠ "fingerprints") by discriminate.
  assert (H2 : "smiles" ≠ "2Dimg") by discriminate.
  split; [exact H1 |]. split; [exact H2 |].
  exact (unknown_struct_type_outcome "toy.sdf" "smiles" Toy.requested None
           (fresh (lib := Toy.library) 0%nat) H1 H2).
Defined.

(** C4, as stated, fails: with a structure type that does not exist and a
    file in which no record passes the filter, the call raises the
    [ValueError] of the unpacking, which is not a [NameError]. *)
Lemma unknown_struct_type_without_NameError :
  "smiles" ≠ "fingerprints" ∧ "smiles" ≠ "2Dimg"
  ∧ (convert_sdf_to_npz (lib := Toy.library) "unlabelled.sdf" "smiles"
       (Some Toy.requested) None (fresh (lib := Toy.library) 0%nat)).1
    = Raise (ValueError "not enough values to unpack (expected 2, got 0)")
  ∧ is_NameError (ValueError "not enough values to unpack (expected 2, got 0)")
    = false.
Proof.
  split; [discriminate |]. split; [discriminate |].
  split; [vm_compute; reflexivity | reflexivity].
Qed.

(** Without the seeding of line 13, what [main] saves depends on the state
    the generator starts in. *)
Lemma main_depends_on_generator :
  saved (main (fresh (lib := Toy.library) 0%nat)).2
  ≠ saved (main (fresh (lib := Toy.library) 1%nat)).2.
Proof. vm_compute. discriminate. Qed.

(** * Further properties of the conversion *)

Section MoreConversion.
Context `{lib : Library}.

Lemma encode_images smile x :
  encode "2Dimg" smile = Ok x →
  ∃ m', MolFromSmiles smile = Some m'
        ∧ x = Image2D (img_to_array (convert_mode_L (MolToImage m' (800, 800)%nat))).
Proof.
  unfold encode, convert_smiles_into_2d_structure_images. cbn.
  destruct (MolFromSmiles smile) as [m'|]; intros [= <-]. eauto.
Qed.

(** X1: with [struct_type] ['2Dimg'], the structure stored for every
    included record is [img_to_array] of the 800 by 800 drawing, converted
    to grayscale, of the molecule that [MolFromSmiles] reads back from
    [MolToSmiles] of the record's molecule. *)
Theorem images_of_canonical_smiles props suppl s s' :
  collect "2Dimg" (Some props) suppl s = (Ok tt, s') →
  ∃ slots, Forall2 (image_slot props) suppl slots
    ∧ X s' = (pairs_of slots).*1.
Proof.
  intros H. destruct (collect_slots _ _ _ _ _ H) as (slots & Hs & HX & _).
  exists slots. split; [| done].
  eapply Forall2_impl; [exact Hs |].
  intros mol slot [Hiff Hpair]. split; [exact Hiff |].
  intros x y Hxy. destruct (Hpair x y Hxy) as (m & -> & Henc & _).
  destruct (encode_images _ _ Henc) as (m' & ? & ?). eauto.
Qed.

(** *** The default of [properties] *)

Lemma loop_without_properties st tot suppl s :
  let r := Stmt.for_each (loop_body st None tot) suppl s in
  (Exists (λ mol, is_unparsed mol = false) suppl → r.1 = Raise none_not_iterable)
  ∧ (Forall (λ mol, is_unparsed mol = true) suppl →
     r.1 = Ok tt ∧ X r.2 = X s ∧ Y r.2 = Y s).
Proof.
  revert s. induction suppl as [|mol suppl IH]; intros s r.
  - split; [by intros ?%Exists_nil | done].
  - subst r. rewrite for_each_cons, loop_body_run, try_body_no_properties.
    destruct mol as [m|]; cbn [is_AttributeError none_not_iterable none_has_no_props].
    + split; [done |]. by intros [[=] _]%Forall_cons.
    + destruct (IH (skip_record tot none_has_no_props s)) as [IH1 IH2].
      destruct (skip_record_fields tot none_has_no_props s) as (EX & EY & _).
      split.
      * intros [[=] | Hex]%Exists_cons. by apply IH1.
      * intros [_ Hall]%Forall_cons. destruct (IH2 Hall) as (? & HX & HY).
        split; [done |]. split; congruence.
Qed.

(** X2: with [properties] left at its default [None] a call never saves:
    it raises the [TypeError] of [set(None)] as soon as a record parses, and
    the [ValueError] of the unpacking when no record of the file parses. *)
Theorem default_properties_never_save sdf st npz s :
  let r := convert_sdf_to_npz sdf st None npz s in
  saved r.2 = saved s
  ∧ (Exists (λ mol, is_unparsed mol = false) (SDMolSupplier sdf) →
     r.1 = Raise none_not_iterable)
  ∧ (Forall (λ mol, is_unparsed mol = true) (SDMolSupplier sdf) →
     r.1 = Raise unpack_error).
Proof.
  intros r.
  destruct (loop_without_properties st (length (SDMolSupplier sdf))
              (SDMolSupplier sdf) (init_vars (emit (PrintStart sdf st None) s)))
    as [H1 H2].
  assert (Hex : Exists (λ mol, is_unparsed mol = false) (SDMolSupplier sdf) →
                r.1 = Raise none_not_iterable).
  { intros Hex. specialize (H1 Hex). subst r. rewrite convert_run, collect_run.
    by destruct (Stmt.for_each _ _ _) as [[[]|e] s1]. }
  assert (Hall : Forall (λ mol, is_unparsed mol = true) (SDMolSupplier sdf) →
                 r.1 = Raise unpack_error).
  { intros Hall. destruct (H2 Hall) as (Hok & HX & HY).
    subst r. rewrite convert_run, collect_run.
    destruct (Stmt.for_each _ _ _) as [[[]|e] s1]; [| done].
    cbn [snd] in HX, HY. rewrite shuffle_and_save_run by (by rewrite HX, HY).
    cbn zeta. by rewrite HX, HY. }
  split; [| by split].
  destruct (r.1) as [[]|e] eqn:Hr; [| by eapply convert_raise_saves_nothing].
  exfalso.
  destruct (decide (Exists (λ mol, is_unparsed mol = false) (SDMolSupplier sdf)))
    as [Hex'|Hn].
  - by specialize (Hex Hex').
  - apply not_Exists_Forall in Hn; [| solve_decision].
    assert (Forall (λ mol, is_unparsed mol = true) (SDMolSupplier sdf)) as Hall'.
    { eapply Forall_impl; [exact Hn |]. intros mol Hm. cbn in Hm.
      by destruct (is_unparsed mol). }
    by specialize (Hall Hall').
Qed.


(** *** What a completed loop printed and logged *)

Lemma try_body_parsed st properties m s :
  let '(r, s1) := try_body st properties (Some m) s in
  trace s1 = trace s ∧ counter s1 = counter s
  ∧ ∀ e, r = Raise e → is_AttributeError e = false.
Proof.
  destruct properties as [props|].
  - pose proof (try_body_cases st props (Some m) s) as H. cbn beta iota in H.
    case_bool_decide.
    + destruct (encode st (MolToSmiles m)) as [x|e] eqn:Henc.
      * destruct H as (row & _ & ->). by repeat split.
      * rewrite H. repeat split. intros e' [= <-].
        by eapply encode_not_AttributeError.
    + rewrite H. by repeat split.
  - rewrite try_body_no_properties. repeat split. by intros e [= <-].
Qed.

Lemma try_body_unparsed st properties s :
  try_body st properties None s = (Raise none_has_no_props, s).
Proof.
  destruct properties; [apply (try_body_cases _ _ None) | apply try_body_no_properties].
Qed.

Lemma next_record_trace tot s :
  trace (next_record tot s)
  = trace s ++ (if (counter s mod 1000 =? 0)%nat
                then [PrintProcessed (counter s) tot] else []).
Proof.
  unfold next_record. destruct (_ =? _)%nat; cbn; [done | by rewrite app_nil_r].
Qed.

Lemma skip_record_trace tot e s :
  trace (skip_record tot e s)
  = trace s ++ LogWarning e
      :: (if (counter s mod 1000 =? 0)%nat
          then [PrintProcessed (counter s) tot] else []).
Proof.
  unfold skip_record. cbn [counter emit].
  destruct (_ =? _)%nat; cbn; [by rewrite <- app_assoc | done].
Qed.

Lemma loop_trace st properties tot suppl s s' :
  Stmt.for_each (loop_body st properties tot) suppl s = (Ok tt, s') →
  trace s' = trace s ++ loop_events tot (counter s) suppl.
Proof.
  revert s. induction suppl as [|mol suppl IH]; intros s.
  - intros [= <-]. cbn. by rewrite app_nil_r.
  - rewrite for_each_cons, loop_body_run. cbn [loop_events]. unfold events_of.
    destruct mol as [m|].
    + pose proof (try_body_parsed st properties m s) as Hp.
      destruct (try_body st properties (Some m) s) as [[[]|e] s1];
        destruct Hp as (Ht & Hc & He).
      * intros ->%IH. destruct (next_record_fields tot s1) as (_ & _ & -> & _).
        rewrite next_record_trace, Ht, Hc, <- app_assoc.
        by replace (counter s + 1)%nat with (S (counter s)) by lia.
      * by rewrite (He e eq_refl).
    + rewrite try_body_unparsed.
      change (is_AttributeError none_has_no_props) with true. cbv iota.
      intros ->%IH.
      destruct (skip_record_fields tot none_has_no_props s) as (_ & _ & -> & _).
      rewrite skip_record_trace, <- app_assoc.
      by replace (counter s + 1)%nat with (S (counter s)) by lia.
Qed.

Lemma collect_trace st properties suppl s s' :
  collect st properties suppl s = (Ok tt, s') →
  trace s' = trace s ++ loop_events (length suppl) 0 suppl.
Proof. rewrite collect_run. by intros ->%loop_trace. Qed.

Lemma warnings_of_loop_events tot c suppl :
  List.filter is_warning (loop_events tot c suppl)
  = repeat (LogWarning none_has_no_props) (length (List.filter is_unparsed suppl)).
Proof.
  revert c. induction suppl as [|mol suppl IH]; intros c; [done |].
  cbn [loop_events]. unfold events_of. rewrite !List.filter_app, IH.
  destruct mol, (_ =? _)%nat; reflexivity.
Qed.

Lemma progress_of_loop_events tot c suppl :
  List.filter is_progress (loop_events tot c suppl)
  = map (λ j, PrintProcessed j tot)
        (List.filter (λ j, j mod 1000 =? 0)%nat (seq c (length suppl))).
Proof.
  revert c. induction suppl as [|mol suppl IH]; intros c; [done |].
  cbn [loop_events length seq List.filter]. unfold events_of.
  rewrite !List.filter_app, IH.
  destruct mol, (c mod 1000 =? 0)%nat; reflexivity.
Qed.

(** X3: a completed loop has logged one warning per record that failed to
    parse, and no other warning. *)
Theorem one_warning_per_unparsed_record st properties suppl s s' :
  collect st properties suppl s = (Ok tt, s') →
  ∃ logged, trace s' = trace s ++ logged
    ∧ List.filter is_warning logged
      = repeat (LogWarning none_has_no_props)
               (length (List.filter is_unparsed suppl)).
Proof.
  intros H%collect_trace. eexists. split; [exact H |].
  apply warnings_of_loop_events.
Qed.

(** X4: a completed loop has printed the progress line for the records at
    the positions divisible by 1000 (0, 1000, 2000, ...), in order, each
    with the total number of records, and no other progress line. *)
Theorem progress_every_thousand_records st properties suppl s s' :
  collect st properties suppl s = (Ok tt, s') →
  ∃ logged, trace s' = trace s ++ logged
    ∧ List.filter is_progress logged
      = map (λ j, PrintProcessed j (length suppl))
            (List.filter (λ j, j mod 1000 =? 0)%nat (seq 0 (length suppl))).
Proof.
  intros H%collect_trace. eexists. split; [exact H |].
  apply progress_of_loop_events.
Qed.


(** *** From the records of the file to the saved arrays *)

Lemma convert_ok_collect sdf st properties npz s s' :
  convert_sdf_to_npz sdf st properties npz s = (Ok tt, s') →
  ∃ s1, collect st properties (SDMolSupplier sdf)
          (emit (PrintStart sdf st properties) s) = (Ok tt, s1)
        ∧ shuffle_and_save sdf st properties npz s1 = (Ok tt, s').
Proof.
  rewrite convert_run. destruct (collect _ _ _ _) as [[[]|e] s1]; [| done]. eauto.
Qed.

(** The file a completed call saved, from the slots of the records. *)
Lemma convert_saved_slots sdf st props npz s s' :
  convert_sdf_to_npz sdf st (Some props) npz s = (Ok tt, s') →
  ∃ mols slots,
    saved s' = saved s ++ [mkNpz (output_path sdf st npz) mols.*1 mols.*2]
    ∧ Forall2 (contributes st props) (SDMolSupplier sdf) slots
    ∧ mols ≡ₚ pairs_of slots
    ∧ mols ≠ [].
Proof.
  intros H. destruct (convert_saves _ _ _ _ _ _ H) as (mols & g' & Hsh & Hne & Hsaved).
  destruct (convert_ok_collect _ _ _ _ _ _ H) as (s1 & Hc & _).
  rewrite Hc in Hsh. cbn [snd] in Hsh.
  destruct (collect_slots _ _ _ _ _ Hc) as (slots & Hslots & HX & HY & _).
  exists mols, slots. split; [exact Hsaved |]. split; [exact Hslots |].
  split; [| done].
  rewrite (shuffle_Permutation _ _ _ _ Hsh), HX, HY. by rewrite zip_fst_snd.
Qed.

Lemma slots_rows st props suppl slots :
  Forall2 (contributes st props) suppl slots →
  Forall (λ p, length p.2 = length props ∧ ∃ smile, encode st smile = Ok p.1)
         (pairs_of slots).
Proof.
  unfold pairs_of. induction 1 as [|mol slot suppl slots [_ Hpair] _ IH]; [done |].
  destruct slot as [[x y]|]; cbn; [| exact IH].
  constructor; [| exact IH].
  destruct (Hpair x y eq_refl) as (m & _ & Henc & Hrow). cbn. split; [| eauto].
  symmetry. by eapply Forall2_length.
Qed.

(** X5: the file a completed call saved holds, up to order, exactly one
    (structure, label) pair per record that parses and has every requested
    property, the structure being the encoding of its canonical SMILES and
    the label its values of the requested properties; it has as many rows
    as there are such records, and at least one. *)
Theorem saved_pairs_are_the_qualifying_records sdf st props npz s s' :
  convert_sdf_to_npz sdf st (Some props) npz s = (Ok tt, s') →
  ∃ f slots, saved s' = saved s ++ [f]
    ∧ Forall2 (contributes st props) (SDMolSupplier sdf) slots
    ∧ zip (npz_x f) (npz_y f) ≡ₚ pairs_of slots
    ∧ length (npz_x f) = length (pairs_of slots)
    ∧ npz_x f ≠ [].
Proof.
  intros H. destruct (convert_saved_slots _ _ _ _ _ _ H)
    as (mols & slots & Hsaved & Hslots & Hperm & Hne).
  eexists _, slots. split; [exact Hsaved |]. cbn [npz_x npz_y].
  split; [exact Hslots |]. rewrite zip_fst_snd. split; [exact Hperm |].
  rewrite length_fmap. split; [by rewrite Hperm |].
  by destruct mols.
Qed.

(** X6: every label row of the file a completed call saved has one entry
    per requested property, so [y] is rectangular. *)
Theorem label_rows_have_one_entry_per_property sdf st props npz s s' :
  convert_sdf_to_npz sdf st (Some props) npz s = (Ok tt, s') →
  ∃ f, saved s' = saved s ++ [f]
    ∧ Forall (λ row, length row = length props) (npz_y f).
Proof.
  intros H. destruct (convert_saved_slots _ _ _ _ _ _ H)
    as (mols & slots & Hsaved & Hslots & Hperm & _).
  eexists. split; [exact Hsaved |]. cbn [npz_y].
  apply Forall_fmap. rewrite Hperm.
  eapply Forall_impl; [exact (slots_rows _ _ _ _ Hslots) |].
  by intros p [Hp _].
Qed.

(** X7: a call either completes and has added exactly one file to those
    saved before, or raises and has saved nothing; it never touches the
    files saved before. *)
Theorem call_saves_one_file_or_none sdf st properties npz s :
  let r := convert_sdf_to_npz sdf st properties npz s in
  (r.1 = Ok tt ∧ ∃ f, saved r.2 = saved s ++ [f])
  ∨ (∃ e, r.1 = Raise e ∧ saved r.2 = saved s).
Proof.
  intros r. destruct r as [[[]|e] s'] eqn:Hr.
  - left. split; [done |].
    destruct (convert_saves _ _ _ _ _ _ Hr) as (mols & g' & _ & _ & Hsaved). eauto.
  - right. exists e. split; [done |].
    pose proof (convert_raise_saves_nothing sdf st properties npz s e) as Hn.
    fold r in Hn. rewrite Hr in Hn. by apply Hn.
Qed.

(** X8: what a completed call printed and logged, in order: the opening
    line, for each record a warning if it failed to parse and a progress
    line if its position is a multiple of 1000, then the debug line with the
    three lengths, all equal to the number of saved rows, and the info line
    with that number and the properties. *)
Theorem completed_call_log sdf st properties npz s s' :
  convert_sdf_to_npz sdf st properties npz s = (Ok tt, s') →
  ∃ f, saved s' = saved s ++ [f]
    ∧ trace s'
      = trace s
        ++ PrintStart sdf st properties
           :: loop_events (length (SDMolSupplier sdf)) 0 (SDMolSupplier sdf)
        ++ [LogDebug (length (npz_x f)) (length (npz_x f)) (length (npz_x f));
            LogInfo (length (npz_x f)) properties].
Proof.
  intros H. destruct (convert_ok_collect _ _ _ _ _ _ H) as (s1 & Hc & Hs).
  pose proof (collect_trace _ _ _ _ _ Hc) as Ht.
  destruct (collect_preserves st properties (SDMolSupplier sdf)
              (emit (PrintStart sdf st properties) s)) as (Hlen & _ & Hsaved).
  rewrite Hc in Hlen, Hsaved. cbn [snd] in Hlen, Hsaved.
  rewrite shuffle_and_save_run in Hs by done. cbn zeta in Hs.
  destruct (shuffle _ _) as [[[|p mols]|e] g'] eqn:Hsh; [done | | done].
  injection Hs as <-. eexists. cbn [saved savez emit set_X set_Y set_rng trace].
  split; [by rewrite Hsaved |]. cbn [npz_x].
  rewrite Ht. cbn [trace emit]. rewrite <- !app_assoc. cbn [app].
  apply shuffle_Permutation, Permutation_length in Hsh.
  rewrite length_zip, <- Hlen, Nat.min_id in Hsh. cbn [length] in Hsh.
  rewrite length_zip, <- Hlen, Nat.min_id. cbn [length].
  change (list_fmap _ _ fst mols) with (mols.*1).
  rewrite length_fmap, Hsh. reflexivity.
Qed.

End MoreConversion.
(** ** The default output path *)

Lemma append_nil_r (s : string) : s +:+ "" = s.
Proof. induction s as [|c s IH]; [done |]. by rewrite append_cons, IH. Qed.

Lemma contains_occurs (old s : string) : occurs old s → contains old s = true.
Proof.
  intros [a [b ->]]. induction a as [|c a IH].
  - rewrite append_empty. assert (String.prefix old (old +:+ b) = true) as Hp.
    { apply prefix_append. by exists b. }
    destruct (old +:+ b); cbn [contains]; by rewrite Hp.
  - rewrite append_cons. cbn [contains]. rewrite IH. apply orb_true_r.
Qed.

Lemma str_replace_absent (s old new : string) :
  old ≠ "" → ¬ occurs old s → str_replace s old new = s.
Proof.
  intros Hold Hno.
  apply (replaced_all_functional old new s); [by apply str_replace_spec |].
  by apply replaced_none.
Qed.

(** An occurrence of ['.sdf'] that starts inside [stem] lies inside it: no
    proper prefix of ['.sdf'] is one of its suffixes. *)
Lemma sdf_occurrence_in_stem (stem a b : string) :
  stem +:+ ".sdf" = a +:+ ".sdf" +:+ b →
  (String.length a < String.length stem)%nat → occurs ".sdf" stem.
Proof.
  revert a. induction stem as [|c stem IH]; intros a Heq Hlen; [cbn in Hlen; lia |].
  destruct a as [|c' a].
  - rewrite append_empty, !append_cons, append_empty in Heq.
    injection Heq as -> Heq.
    destruct stem as [|c1 stem]; [discriminate Heq |].
    rewrite append_cons in Heq. injection Heq as -> Heq.
    destruct stem as [|c2 stem]; [discriminate Heq |].
    rewrite append_cons in Heq. injection Heq as -> Heq.
    destruct stem as [|c3 stem]; [discriminate Heq |].
    rewrite append_cons in Heq. injection Heq as -> Heq.
    exists "", stem. reflexivity.
  - rewrite !append_cons in Heq. injection Heq as <- Heq.
    cbn [String.length] in Hlen.
    destruct (IH a Heq) as [a0 [b0 ->]]; [lia |].
    exists (String c a0), b0. by rewrite append_cons.
Qed.

Lemma str_replace_sdf_suffix (stem new : string) :
  ¬ occurs ".sdf" stem → str_replace (stem +:+ ".sdf") ".sdf" new = stem +:+ new.
Proof.
  intros Hno.
  apply (replaced_all_functional ".sdf" new (stem +:+ ".sdf"));
    [by apply str_replace_spec |].
  pose proof (replaced_first ".sdf" new stem "" "") as H.
  change (".sdf" +:+ "") with ".sdf" in H. rewrite (append_nil_r new) in H.
  apply H; [| by apply replaced_none, not_occurs_empty].
  intros a' [b' Hb']. destruct (Nat.le_gt_cases (String.length stem) (String.length a'))
    as [Hle | Hgt]; [done |].
  destruct Hno. by eapply sdf_occurrence_in_stem.
Qed.

Section Paths.
Context `{lib : Library}.

(** X9: for a path [stem.sdf] whose stem contains no ['.sdf'], a completed
    call with [npz_file_path] [None] or the empty string saves to
    [stem_<struct_type>.npz]. *)
Theorem default_path_replaces_sdf_suffix stem st properties npz s s' :
  ¬ occurs ".sdf" stem → npz = None ∨ npz = Some "" →
  convert_sdf_to_npz (stem +:+ ".sdf") st properties npz s = (Ok tt, s') →
  ∃ f, saved s' = saved s ++ [f]
    ∧ npz_path f = stem +:+ "_" +:+ st +:+ ".npz".
Proof.
  intros Hno Hnpz H.
  destruct (convert_saves _ _ _ _ _ _ H) as (mols & g' & _ & _ & Hsaved).
  eexists. split; [exact Hsaved |]. cbn [npz_path]. unfold output_path.
  rewrite str_replace_sdf_suffix by done. by destruct Hnpz as [-> | ->].
Qed.

(** X10: for a path that contains no ['.sdf'] (another extension, or
    upper case), a completed call with [npz_file_path] [None] or the empty
    string hands [np.savez] the path of the input file itself. *)
Theorem default_path_without_sdf_is_the_input_path sdf st properties npz s s' :
  ¬ occurs ".sdf" sdf → npz = None ∨ npz = Some "" →
  convert_sdf_to_npz sdf st properties npz s = (Ok tt, s') →
  ∃ f, saved s' = saved s ++ [f] ∧ npz_path f = sdf.
Proof.
  intros Hno Hnpz H.
  destruct (convert_saves _ _ _ _ _ _ H) as (mols & g' & _ & _ & Hsaved).
  eexists. split; [exact Hsaved |]. cbn [npz_path]. unfold output_path.
  rewrite str_replace_absent by done. by destruct Hnpz as [-> | ->].
Qed.

End Paths.

(** ** [main] *)

Lemma bind_ok {S A B} (m : M S A) (k : A → M S B) (s s' : S) (b : B) :
  Stmt.bind m k s = (Ok b, s') →
  ∃ a s1, m s = (Ok a, s1) ∧ k a s1 = (Ok b, s').
Proof. unfold Stmt.bind. destruct (m s) as [[a|e] s1]; [eauto | done]. Qed.

Section Main.
Context `{lib : Library}.

Lemma convert_saved_kind sdf st props npz s s' :
  convert_sdf_to_npz sdf st (Some props) npz s = (Ok tt, s') →
  ∃ f, saved s' = saved s ++ [f]
    ∧ npz_path f = output_path sdf st npz
    ∧ Forall (λ x, ∃ smile, encode st smile = Ok x) (npz_x f).
Proof.
  intros H. destruct (convert_saved_slots _ _ _ _ _ _ H)
    as (mols & slots & Hsaved & Hslots & Hperm & _).
  eexists. split; [exact Hsaved |]. split; [done |]. cbn [npz_x].
  apply Forall_fmap. rewrite Hperm.
  eapply Forall_impl; [exact (slots_rows _ _ _ _ Hslots) |].
  by intros p [_ Hp].
Qed.

Lemma encode_kind st smile x :
  encode st smile = Ok x →
  (st = "fingerprints" ∧ is_fingerprint x = true)
  ∨ (st = "2Dimg" ∧ is_image x = true).
Proof.
  unfold encode. destruct (String.eqb_spec st "fingerprints") as [-> | _].
  - destruct (convert_smiles_into_fingerprints smile); intros [= <-]. by left.
  - destruct (String.eqb_spec st "2Dimg") as [-> | _]; [| done].
    destruct (convert_smiles_into_2d_structure_images smile); intros [= <-]. by right.
Qed.

(** X11: a completed [main] has saved six files, in this order and to
    these paths; the sixth, which holds images, goes to the path the third
    saved its fingerprints to. *)
Theorem main_saves_six_files s s' :
  main s = (Ok tt, s') →
  ∃ f1 f2 f3 f4 f5 f6,
    saved s' = saved s ++ [f1; f2; f3; f4; f5; f6]
    ∧ npz_path <$> [f1; f2; f3; f4; f5; f6]
      = ["data/tox21_10k_data_all_fingerprints.npz";
         "data/ncidb_fingerprints.npz";
         "data/ncidb_experim_data_fingerprints.npz";
         "data/tox21_10k_data_all_2Dimg.npz";
         "data/ncidb_2Dimg.npz";
         "data/ncidb_experim_data_fingerprints.npz"]
    ∧ npz_path f3 = npz_path f6
    ∧ Forall (λ x, is_fingerprint x = true) (npz_x f3)
    ∧ Forall (λ x, is_image x = true) (npz_x f6).
Proof.
  unfold main. cbv zeta. unfold mbind, M_bind. intros H.
  apply bind_ok in H as ([] & s1 & H1 & H).
  apply bind_ok in H as ([] & s2 & H2 & H).
  apply bind_ok in H as ([] & s3 & H3 & H).
  apply bind_ok in H as ([] & s4 & H4 & H).
  apply bind_ok in H as ([] & s5 & H5 & H6).
  apply convert_saved_kind in H1 as (f1 & E1 & P1 & _).
  apply convert_saved_kind in H2 as (f2 & E2 & P2 & _).
  apply convert_saved_kind in H3 as (f3 & E3 & P3 & K3).
  apply convert_saved_kind in H4 as (f4 & E4 & P4 & _).
  apply convert_saved_kind in H5 as (f5 & E5 & P5 & _).
  apply convert_saved_kind in H6 as (f6 & E6 & P6 & K6).
  exists f1, f2, f3, f4, f5, f6.
  split; [rewrite E6, E5, E4, E3, E2, E1, <- !app_assoc; reflexivity |].
  split; [cbn [fmap list_fmap]; rewrite P1, P2, P3, P4, P5, P6; reflexivity |].
  split; [by rewrite P3, P6 |].
  split.
  - eapply Forall_impl; [exact K3 |]. intros x [smile Hx].
    by destruct (encode_kind _ _ _ Hx) as [[_ ?] | [[=] _]].
  - eapply Forall_impl; [exact K6 |]. intros x [smile Hx].
    by destruct (encode_kind _ _ _ Hx) as [[[=] _] | [_ ?]].
Qed.

(** *** No property requested *)

Lemma qualifies_nothing_requested (mol : option Mol) :
  qualifies [] mol ↔ is_unparsed mol = false.
Proof.
  split.
  - by intros (m & -> & _).
  - destruct mol as [m|]; [| done]. intros _. exists m. split; [done |].
    by intros key ?%elem_of_nil.
Qed.

(** X12: with an empty list of properties every record that parses is
    included, each with an empty label row. *)
Theorem no_property_requested_keeps_every_molecule st suppl s s' :
  collect st (Some []) suppl s = (Ok tt, s') →
  length (X s') = length (List.filter (λ mol, negb (is_unparsed mol)) suppl)
  ∧ length (Y s') = length (X s')
  ∧ Forall (λ row, row = []) (Y s').
Proof.
  intros H. destruct (collect_slots _ _ _ _ _ H) as (slots & Hslots & -> & -> & _).
  rewrite !length_fmap. split; [| split; [done |]].
  - clear H. unfold pairs_of.
    induction Hslots as [|mol slot suppl slots [Hiff _] _ IH]; [done |].
    rewrite qualifies_nothing_requested in Hiff. cbn [List.filter omap list_omap].
    destruct slot as [p|], (is_unparsed mol); cbn.
    + by destruct Hiff as [Hiff _]; specialize (Hiff (mk_is_Some _ _ eq_refl)).
    + by rewrite IH.
    + exact IH.
    + by destruct Hiff as [_ [? [=]]].
  - apply Forall_fmap. eapply Forall_impl; [exact (slots_rows _ _ _ _ Hslots) |].
    intros [x row] [Hlen _]. cbn in *. by destruct row.
Qed.

End Main.

(** ** Further properties of [each_metric] *)

Lemma for_each_app {S A} (f : A → M S unit) (l1 l2 : list A) (s : S) :
  Stmt.for_each f (l1 ++ l2) s
  = match Stmt.for_each f l1 s with
    | (Ok _, s1) => Stmt.for_each f l2 s1
    | (Raise e, s1) => (Raise e, s1)
    end.
Proof.
  revert s. induction l1 as [|a l1 IH]; intros s; [done |].
  cbn [app]. rewrite !for_each_cons. destruct (f a s) as [[[]|e] s1]; [apply IH | done].
Qed.

(** X13: for matrices of the same shape with at least one row and more
    than three columns, [each_metric] prints the accuracies of the three
    named classes and then raises [IndexError] at the fourth; the separator
    and the F1 scores are never printed. *)
Theorem each_metric_more_than_three_classes {I : Type} fbeta_score (input_data : I)
    (y_test : ndarray) (model_predict : I → ndarray) (out : list line) :
  let y_pred := model_predict input_data in
  well_shaped y_pred → well_shaped y_test → shape y_pred = shape y_test →
  (0 < (shape y_pred).1)%nat → (3 < (shape y_pred).2)%nat →
  each_metric fbeta_score input_data y_test model_predict out
  = (Raise IndexError,
     out ++ map (λ i, PrintAccuracy (classes !!! i)
                        (per_class_accuracy y_pred y_test i)) [0; 1; 2]%nat).
Proof.
  intros y_pred Hp Ht Hshape Hrows Hcols.
  unfold each_metric. fold y_pred. run. unfold accuracy_report. cbn [mask shape].
  assert (seq 0 (shape y_pred).2
          = [0; 1; 2]%nat ++ 3%nat :: seq 4 ((shape y_pred).2 - 4)) as ->.
  { destruct (shape y_pred).2 as [|[|[|[|n]]]]; try lia.
    cbn [seq app Nat.sub]. by rewrite Nat.sub_0_r. }
  rewrite for_each_app, (accuracy_steps y_pred y_test Hp Ht Hshape Hrows).
  2: { repeat constructor; lia. }
  rewrite for_each_cons. run.
  rewrite (count_right_hits y_pred y_test 3 Hp Ht Hshape Hcols).
  2: { apply Forall_forall. intros j Hj%elem_of_seq. lia. }
  destruct (shape y_pred).1 as [|n]; [lia |]. reflexivity.
Qed.

(** X14: for a prediction matrix with no row and at least one column,
    [each_metric] raises [ZeroDivisionError] and prints nothing. *)
Theorem each_metric_without_rows {I : Type} fbeta_score (input_data : I)
    (y_test : ndarray) (model_predict : I → ndarray) (out : list line) :
  (shape (model_predict input_data)).1 = 0%nat →
  (0 < (shape (model_predict input_data)).2)%nat →
  each_metric fbeta_score input_data y_test model_predict out
  = (Raise ZeroDivisionError, out).
Proof.
  intros Hrows Hcols. unfold each_metric. run. unfold accuracy_report.
  cbn [mask shape]. rewrite Hrows.
  destruct (shape (model_predict input_data)).2 as [|n]; [lia |].
  reflexivity.
Qed.

Lemma column_mask (a : ndarray) (i : nat) :
  (i < (shape a).2)%nat →
  column (mask a) i = Ok (map thresholded (column_of a i)).
Proof.
  intros Hi%Nat.ltb_lt. unfold column, column_of, mask. cbn [shape rows].
  rewrite Hi. f_equal. induction (rows a) as [|r l IH]; [done |].
  cbn [map omap list_omap]. change (map mask_value r) with (mask_value <$> r).
  rewrite list_lookup_fmap. destruct (r !! i) as [v|]; cbn; [| exact IH].
  by rewrite mask_value_thresholded, <- IH.
Qed.

Lemma column_in_range (a : ndarray) (i : nat) :
  (i < (shape a).2)%nat → column a i = Ok (column_of a i).
Proof. intros Hi%Nat.ltb_lt. unfold column. by rewrite Hi. Qed.

Lemma f1_steps (f : list Q → list Q → Q) (y_pred y_test : ndarray) :
  shape y_pred = shape y_test →
  ∀ columns out,
  Forall (λ i, i < (shape y_pred).2 ∧ i < 3)%nat columns →
  Stmt.for_each (λ i,
    y_p ← Stmt.lift (column (mask y_pred) i);
    y_t ← Stmt.lift (column y_test i);
    f1 ← Stmt.lift (Ok (f y_t y_p));
    class ← Stmt.lift (class_name i);
    Stmt.modify (λ out, out ++ [PrintF1 class f1])) columns out
  = (Ok tt,
     out ++ map (λ i, PrintF1 (classes !!! i)
                        (f (column_of y_test i)
                           (map thresholded (column_of y_pred i)))) columns).
Proof.
  intros Hshape columns.
  induction columns as [|i columns IH]; intros out Hcols.
  - cbn. by rewrite app_nil_r.
  - apply Forall_cons in Hcols as [[Hi1 Hi2] Hcols].
    rewrite for_each_cons. run.
    rewrite column_mask by done.
    rewrite column_in_range by (by rewrite <- Hshape).
    rewrite class_name_known by done.
    rewrite IH by done. cbn [map]. by rewrite <- app_assoc.
Qed.

(** X15: for matrices of the same shape with at least one row and at most
    three columns and a score that does not raise, [each_metric] completes
    and prints the accuracy lines, the separator, and for each class the F1
    score of the label column (first argument) and the thresholded
    prediction column (second argument). *)
Theorem each_metric_full_report {I : Type} (f : list Q → list Q → Q)
    (input_data : I) (y_test : ndarray) (model_predict : I → ndarray)
    (out : list line) :
  let y_pred := model_predict input_data in
  well_shaped y_pred → well_shaped y_test → shape y_pred = shape y_test →
  (0 < (shape y_pred).1)%nat → ((shape y_pred).2 ≤ 3)%nat →
  each_metric (λ y_t y_p, Ok (f y_t y_p)) input_data y_test model_predict out
  = (Ok tt,
     out ++ accuracy_lines y_pred y_test
         ++ PrintRule :: f1_lines f y_pred y_test).
Proof.
  intros y_pred Hp Ht Hshape Hrows Hcols.
  unfold each_metric. fold y_pred. run. cbn [mask shape].
  rewrite (accuracy_report_run y_pred y_test out Hp Ht Hshape Hrows Hcols).
  unfold f1_report. cbn [mask shape].
  rewrite (f1_steps f y_pred y_test Hshape).
  2: { apply Forall_forall. intros i Hi%elem_of_seq. lia. }
  unfold f1_lines. by rewrite <- !app_assoc.
Qed.

Lemma fraction_at_most_one (k n : nat) :
  (k ≤ n)%nat → (Z.of_nat k <= Z.pos (Pos.of_nat n))%Z.
Proof.
  intros Hk. destruct n as [|n]; [cbn; lia |].
  rewrite <- Pos.of_nat_succ, Zpos_P_of_succ_nat. lia.
Qed.

Lemma per_class_accuracy_in_range (y_pred y_test : ndarray) (i : nat) :
  length (rows y_pred) = length (rows y_test) →
  (0 <= per_class_accuracy y_pred y_test i)%Q
  ∧ (per_class_accuracy y_pred y_test i <= 1)%Q.
Proof.
  intros Hlen. unfold per_class_accuracy, Qle. cbn [Qnum Qden].
  split; [lia |]. rewrite Z.mul_1_r, Z.mul_1_l.
  apply fraction_at_most_one.
  pose proof (List.filter_length_le (agrees i) (zip (rows y_pred) (rows y_test))) as Hle.
  by rewrite length_zip, Hlen, Nat.min_id in Hle.
Qed.

(** X16: under the same conditions every accuracy [each_metric] prints is
    between 0 and 1, and there is one per column. *)
Theorem reported_accuracies_in_range {I : Type} fbeta_score (input_data : I)
    (y_test : ndarray) (model_predict : I → ndarray) (out : list line) :
  let y_pred := model_predict input_data in
  well_shaped y_pred → well_shaped y_test → shape y_pred = shape y_test →
  (0 < (shape y_pred).1)%nat → ((shape y_pred).2 ≤ 3)%nat →
  ∃ lines rest,
    (each_metric fbeta_score input_data y_test model_predict out).2
    = out ++ lines ++ PrintRule :: rest
    ∧ length lines = (shape y_pred).2
    ∧ Forall accuracy_in_range lines.
Proof.
  intros y_pred Hp Ht Hshape Hrows Hcols.
  unfold each_metric. fold y_pred. run. cbn [mask shape].
  rewrite (accuracy_report_run y_pred y_test out Hp Ht Hshape Hrows Hcols).
  destruct (f1_report_appends fbeta_score (mask y_pred) y_test
              ((out ++ accuracy_lines y_pred y_test) ++ [PrintRule]))
    as [rest Hrest].
  exists (accuracy_lines y_pred y_test), rest.
  split; [rewrite Hrest, <- !app_assoc; reflexivity |].
  unfold accuracy_lines. split; [by rewrite length_map, length_seq |].
  apply Forall_forall. intros l (i & <- & _)%list_elem_of_In%in_map_iff.
  eexists _, _. split; [done |].
  apply per_class_accuracy_in_range.
  destruct Hp as [-> _], Ht as [-> _]. by rewrite Hshape.
Qed.

(** ** These statements at the two instances *)

Lemma completes_eq {S : Type} (r : result unit * S) :
  completes r = true → r = (Ok tt, r.2).
Proof. by destruct r as [[[]|e] s]. Qed.

Lemma toy_stem_has_no_sdf : ¬ occurs ".sdf" "toy".
Proof. intros H%contains_occurs. vm_compute in H. discriminate H. Qed.

Lemma molecules_has_no_sdf : ¬ occurs ".sdf" "molecules".
Proof. intros H%contains_occurs. vm_compute in H. discriminate H. Qed.

Lemma toy_draws_in_range :
  (∀ g n, 0 < n → (randbelow (Library := Toy.library) g n).1 < n)%nat.
Proof. intros g n Hn. cbn. apply Nat.mod_upper_bound. lia. Qed.

Lemma toy_smiles_parse_back :
  Forall (λ mol, ∀ m, mol = Some m → qualifies (lib := Toy.library) Toy.requested mol →
                      is_Some (MolFromSmiles (MolToSmiles m)))
         (SDMolSupplier (Library := Toy.library) "toy.sdf").
Proof.
  change (SDMolSupplier (Library := Toy.library) "toy.sdf")
    with [Some Toy.ethanol; None; Some Toy.benzene; Some Toy.water;
          Some Toy.ammonia : option (Mol (Library := Toy.library))].
  repeat constructor; intros m [= <-] _; vm_compute; eauto.
Qed.

Lemma toy_ethanol_qualifies :
  Exists (qualifies (lib := Toy.library) Toy.requested)
         (SDMolSupplier (Library := Toy.library) "toy.sdf").
Proof.
  apply Exists_cons_hd. exists Toy.ethanol. split; [reflexivity |].
  intros key Hkey. unfold Toy.requested in Hkey.
  apply elem_of_cons in Hkey as [-> | Hkey]; [vm_compute; eauto |].
  apply elem_of_cons in Hkey as [-> | Hkey]; [vm_compute; eauto |].
  by apply elem_of_nil in Hkey.
Qed.

Lemma images_of_canonical_smiles_witness :
  let r := collect (lib := Toy.library) "2Dimg" (Some Toy.requested)
             (SDMolSupplier "toy.sdf") (fresh (lib := Toy.library) 0%nat) in
  r = (Ok tt, r.2)
  ∧ ∃ slots, Forall2 (image_slot Toy.requested) (SDMolSupplier "toy.sdf") slots
      ∧ X r.2 = (pairs_of slots).*1.
Proof.
  intros r. assert (H : r = (Ok tt, r.2)) by (apply completes_eq; vm_compute; reflexivity).
  split; [exact H |]. exact (images_of_canonical_smiles _ _ _ _ H).
Defined.

Lemma one_warning_per_unparsed_record_witness :
  let s := fresh (lib := Toy.library) 0%nat in
  let r := collect "fingerprints" (Some Toy.requested) (SDMolSupplier "toy.sdf") s in
  r = (Ok tt, r.2)
  ∧ ∃ logged, trace r.2 = trace s ++ logged
      ∧ List.filter is_warning logged
        = repeat (LogWarning none_has_no_props)
                 (length (List.filter is_unparsed (SDMolSupplier "toy.sdf"))).
Proof.
  intros s r. assert (H : r = (Ok tt, r.2)) by (apply completes_eq; vm_compute; reflexivity).
  split; [exact H |]. exact (one_warning_per_unparsed_record _ _ _ _ _ H).
Defined.

Lemma progress_every_thousand_records_witness :
  let s := fresh (lib := Toy.library) 0%nat in
  let r := collect "fingerprints" (Some Toy.requested) (SDMolSupplier "toy.sdf") s in
  r = (Ok tt, r.2)
  ∧ ∃ logged, trace r.2 = trace s ++ logged
      ∧ List.filter is_progress logged
        = map (λ j, PrintProcessed j (length (SDMolSupplier "toy.sdf")))
              (List.filter (λ j, j mod 1000 =? 0)%nat
                 (seq 0 (length (SDMolSupplier "toy.sdf")))).
Proof.
  intros s r. assert (H : r = (Ok tt, r.2)) by (apply completes_eq; vm_compute; reflexivity).
  split; [exact H |]. exact (progress_every_thousand_records _ _ _ _ _ H).
Defined.

Lemma saved_pairs_are_the_qualifying_records_witness :
  let s := fresh (lib := Toy.library) 0%nat in
  let r := convert_sdf_to_npz "toy.sdf" "fingerprints" (Some Toy.requested) None s in
  r = (Ok tt, r.2)
  ∧ ∃ f slots, saved r.2 = saved s ++ [f]
      ∧ Forall2 (contributes "fingerprints" Toy.requested) (SDMolSupplier "toy.sdf") slots
      ∧ zip (npz_x f) (npz_y f) ≡ₚ pairs_of slots
      ∧ length (npz_x f) = length (pairs_of slots)
      ∧ npz_x f ≠ [].
Proof.
  intros s r. assert (H : r = (Ok tt, r.2)) by (apply completes_eq; vm_compute; reflexivity).
  split; [exact H |]. exact (saved_pairs_are_the_qualifying_records _ _ _ _ _ _ H).
Defined.

Lemma label_rows_have_one_entry_per_property_witness :
  let s := fresh (lib := Toy.library) 0%nat in
  let r := convert_sdf_to_npz "toy.sdf" "2Dimg" (Some Toy.requested) None s in
  r = (Ok tt, r.2)
  ∧ ∃ f, saved r.2 = saved s ++ [f]
      ∧ Forall (λ row, length row = length Toy.requested) (npz_y f).
Proof.
  intros s r. assert (H : r = (Ok tt, r.2)) by (apply completes_eq; vm_compute; reflexivity).
  split; [exact H |]. exact (label_rows_have_one_entry_per_property _ _ _ _ _ _ H).
Defined.

Lemma completed_call_log_witness :
  let s := fresh (lib := Toy.library) 0%nat in
  let r := convert_sdf_to_npz "toy.sdf" "fingerprints" (Some Toy.requested) None s in
  r = (Ok tt, r.2)
  ∧ ∃ f, saved r.2 = saved s ++ [f]
      ∧ trace r.2
        = trace s
          ++ PrintStart "toy.sdf" "fingerprints" (Some Toy.requested)
             :: loop_events (length (SDMolSupplier "toy.sdf")) 0 (SDMolSupplier "toy.sdf")
          ++ [LogDebug (length (npz_x f)) (length (npz_x f)) (length (npz_x f));
              LogInfo (length (npz_x f)) (Some Toy.requested)].
Proof.
  intros s r. assert (H : r = (Ok tt, r.2)) by (apply completes_eq; vm_compute; reflexivity).
  split; [exact H |]. exact (completed_call_log _ _ _ _ _ _ H).
Defined.

Lemma default_path_replaces_sdf_suffix_witness :
  let s := fresh (lib := Toy.library) 0%nat in
  let r := convert_sdf_to_npz ("toy" +:+ ".sdf") "fingerprints"
             (Some Toy.requested) (Some "") s in
  ¬ occurs ".sdf" "toy" ∧ r = (Ok tt, r.2)
  ∧ ∃ f, saved r.2 = saved s ++ [f]
      ∧ npz_path f = "toy" +:+ "_" +:+ "fingerprints" +:+ ".npz".
Proof.
  intros s r. assert (H : r = (Ok tt, r.2)) by (apply completes_eq; vm_compute; reflexivity).
  split; [exact toy_stem_has_no_sdf |]. split; [exact H |].
  exact (default_path_replaces_sdf_suffix "toy" "fingerprints" _ (Some "") s r.2
           toy_stem_has_no_sdf (or_intror eq_refl) H).
Defined.

Lemma default_path_without_sdf_is_the_input_path_witness :
  let s := fresh (lib := Lab.library) 0%nat in
  let r := convert_sdf_to_npz "molecules" "fingerprints"
             (Some Toy.requested) None s in
  ¬ occurs ".sdf" "molecules" ∧ r = (Ok tt, r.2)
  ∧ ∃ f, saved r.2 = saved s ++ [f] ∧ npz_path f = "molecules".
Proof.
  intros s r. assert (H : r = (Ok tt, r.2)) by (apply completes_eq; vm_compute; reflexivity).
  split; [exact molecules_has_no_sdf |]. split; [exact H |].
  exact (default_path_without_sdf_is_the_input_path "molecules" "fingerprints" _
           None s r.2 molecules_has_no_sdf (or_introl eq_refl) H).
Defined.

Lemma main_saves_six_files_witness :
  let s := fresh (lib := Lab.library) 0%nat in
  let r := main s in
  r = (Ok tt, r.2)
  ∧ ∃ f1 f2 f3 f4 f5 f6,
      saved r.2 = saved s ++ [f1; f2; f3; f4; f5; f6]
      ∧ npz_path <$> [f1; f2; f3; f4; f5; f6]
        = ["data/tox21_10k_data_all_fingerprints.npz";
           "data/ncidb_fingerprints.npz";
           "data/ncidb_experim_data_fingerprints.npz";
           "data/tox21_10k_data_all_2Dimg.npz";
           "data/ncidb_2Dimg.npz";
           "data/ncidb_experim_data_fingerprints.npz"]
      ∧ npz_path f3 = npz_path f6
      ∧ Forall (λ x, is_fingerprint x = true) (npz_x f3)
      ∧ Forall (λ x, is_image x = true) (npz_x f6).
Proof.
  intros s r. assert (H : r = (Ok tt, r.2)) by (apply completes_eq; vm_compute; reflexivity).
  split; [exact H |]. exact (main_saves_six_files s r.2 H).
Defined.

Lemma no_property_requested_keeps_every_molecule_witness :
  let s := fresh (lib := Toy.library) 0%nat in
  let r := collect "fingerprints" (Some []) (SDMolSupplier "toy.sdf") s in
  r = (Ok tt, r.2)
  ∧ length (X r.2)
    = length (List.filter (λ mol, negb (is_unparsed mol)) (SDMolSupplier "toy.sdf"))
  ∧ length (Y r.2) = length (X r.2)
  ∧ Forall (λ row, row = []) (Y r.2).
Proof.
  intros s r. assert (H : r = (Ok tt, r.2)) by (apply completes_eq; vm_compute; reflexivity).
  split; [exact H |].
  exact (no_property_requested_keeps_every_molecule _ _ _ _ H).
Defined.

Lemma convert_completes_witness :
  ("fingerprints" = "fingerprints" ∨ "fingerprints" = "2Dimg")
  ∧ ∃ s', convert_sdf_to_npz (lib := Toy.library) "toy.sdf" "fingerprints"
            (Some Toy.requested) None (fresh (lib := Toy.library) 0%nat)
          = (Ok tt, s').
Proof.
  split; [by left |].
  exact (convert_completes "toy.sdf" "fingerprints" Toy.requested None
           (fresh (lib := Toy.library) 0%nat) (or_introl eq_refl)
           toy_smiles_parse_back toy_ethanol_qualifies toy_draws_in_range).
Defined.

Lemma lab_arrays_well_shaped : well_shaped Lab.y_pred4 ∧ well_shaped Lab.y_test4.
Proof. repeat split; repeat constructor. Qed.

Lemma each_metric_more_than_three_classes_witness :
  well_shaped Lab.y_pred4 ∧ well_shaped Lab.y_test4
  ∧ shape Lab.y_pred4 = shape Lab.y_test4
  ∧ each_metric Toy.f1_zero tt Lab.y_test4 (λ _, Lab.y_pred4) []
    = (Raise IndexError,
       [] ++ map (λ i, PrintAccuracy (classes !!! i)
                         (per_class_accuracy Lab.y_pred4 Lab.y_test4 i))
                 [0; 1; 2]%nat).
Proof.
  destruct lab_arrays_well_shaped as [Hp Ht].
  split; [exact Hp |]. split; [exact Ht |]. split; [reflexivity |].
  refine (each_metric_more_than_three_classes Toy.f1_zero tt Lab.y_test4
            (λ _, Lab.y_pred4) [] Hp Ht eq_refl _ _); cbn; lia.
Defined.

Lemma each_metric_without_rows_witness :
  (shape Toy.y_none).1 = 0%nat ∧ (0 < (shape Toy.y_none).2)%nat
  ∧ each_metric Toy.f1_zero tt Toy.y_none (λ _, Toy.y_none) []
    = (Raise ZeroDivisionError, []).
Proof.
  split; [reflexivity |]. split; [cbn; lia |].
  refine (each_metric_without_rows Toy.f1_zero tt Toy.y_none (λ _, Toy.y_none) []
            eq_refl _); cbn; lia.
Defined.

Lemma each_metric_full_report_witness :
  well_shaped Toy.y_pred ∧ well_shaped Toy.y_test
  ∧ shape Toy.y_pred = shape Toy.y_test
  ∧ each_metric (λ y_t y_p, Ok (Lab.count_score y_t y_p)) tt Toy.y_test
      (λ _, Toy.y_pred) []
    = (Ok tt,
       [] ++ accuracy_lines Toy.y_pred Toy.y_test
          ++ PrintRule :: f1_lines Lab.count_score Toy.y_pred Toy.y_test).
Proof.
  destruct toy_arrays_well_shaped as (Hp & Ht & _).
  split; [exact Hp |]. split; [exact Ht |]. split; [reflexivity |].
  refine (each_metric_full_report Lab.count_score tt Toy.y_test
            (λ _, Toy.y_pred) [] Hp Ht eq_refl _ _); cbn; lia.
Defined.

Lemma reported_accuracies_in_range_witness :
  well_shaped Toy.y_pred ∧ well_shaped Toy.y_test
  ∧ shape Toy.y_pred = shape Toy.y_test
  ∧ ∃ lines rest,
      (each_metric Toy.f1_zero tt Toy.y_test (λ _, Toy.y_pred) []).2
      = [] ++ lines ++ PrintRule :: rest
      ∧ length lines = (shape Toy.y_pred).2
      ∧ Forall accuracy_in_range lines.
Proof.
  destruct toy_arrays_well_shaped as (Hp & Ht & _).
  split; [exact Hp |]. split; [exact Ht |]. split; [reflexivity |].
  refine (reported_accuracies_in_range Toy.f1_zero tt Toy.y_test
            (λ _, Toy.y_pred) [] Hp Ht eq_refl _ _); cbn; lia.
Defined.

(** * Whole calls: the pass over the records, and the script *)

Section WholeCalls.
Context `{lib : Library}.

(** *** The body of the [try] as an update of [X] and [Y] *)

Lemma comprehension_getitem_any (d : gmap string value) (keys : list string) :
  (∀ key, key ∈ keys → is_Some (d !! key)) →
  ∃ row, ∀ s : state,
    Stmt.comprehension (λ key, Stmt.lift (getitem d key)) keys s = (Ok row, s).
Proof.
  induction keys as [|k keys IH]; intros H.
  - by exists [].
  - destruct (H k) as [v Hv]; [left |].
    destruct IH as (row & Hrow). { intros key Hk. apply H. by right. }
    exists (v :: row). intros s.
    cbn [Stmt.comprehension]. unfold Stmt.bind at 1. unfold Stmt.lift at 1.
    unfold getitem at 1. rewrite Hv. unfold Stmt.bind at 1. by rewrite Hrow.
Qed.

(** What the body does to a record depends on the record, not on the state
    it runs in. *)
Lemma try_body_effect st properties mol :
  ∃ r upd, ∀ s, try_body st properties mol s = (r, append_pair upd s).
Proof.
  destruct mol as [m|];
    [| exists (Raise none_has_no_props), None; apply try_body_unparsed].
  destruct properties as [props|];
    [| exists (Raise none_not_iterable), None;
       intros s; apply try_body_no_properties].
  destruct (decide (list_to_set (C := gset string) props ⊆ dom (GetPropsAsDict m)))
    as [Hsub | Hsub].
  - destruct (encode st (MolToSmiles m)) as [x|e] eqn:Henc.
    + destruct (comprehension_getitem_any (GetPropsAsDict m) props) as [row Hrow].
      { by apply subset_keys. }
      exists (Ok tt), (Some (x, row)). intros s.
      unfold try_body. run. rewrite bool_decide_eq_true_2 by done.
      rewrite Henc. unfold Stmt.lift in Hrow. by rewrite Hrow.
    + exists (Raise e), None. intros s.
      pose proof (try_body_cases st props (Some m) s) as H. cbn beta iota in H.
      rewrite bool_decide_eq_true_2, Henc in H by done. exact H.
  - exists (Ok tt), None. intros s.
    pose proof (try_body_cases st props (Some m) s) as H. cbn beta iota in H.
    by rewrite bool_decide_eq_false_2 in H.
Qed.

Lemma append_pair_same upd s t :
  same_lists s t → same_lists (append_pair upd s) (append_pair upd t).
Proof. intros [HX HY]. destruct upd as [[x row]|]; [| done]. split; cbn; congruence. Qed.

Lemma loop_body_same st properties tot tot' mol s t :
  same_lists s t →
  (loop_body st properties tot mol s).1 = (loop_body st properties tot' mol t).1
  ∧ same_lists (loop_body st properties tot mol s).2
               (loop_body st properties tot' mol t).2.
Proof.
  intros Hst. rewrite !loop_body_run.
  destruct (try_body_effect st properties mol) as (r & upd & Hbody).
  rewrite !Hbody. pose proof (append_pair_same upd s t Hst) as [HX HY].
  destruct r as [[]|e].
  - split; [done |]. cbn [snd].
    destruct (next_record_fields tot (append_pair upd s)) as (E1 & E2 & _).
    destruct (next_record_fields tot' (append_pair upd t)) as (E3 & E4 & _).
    unfold same_lists. by rewrite E1, E2, E3, E4.
  - destruct (is_AttributeError e); [| done]. split; [done |]. cbn [snd].
    destruct (skip_record_fields tot e (append_pair upd s)) as (E1 & E2 & _).
    destruct (skip_record_fields tot' e (append_pair upd t)) as (E3 & E4 & _).
    unfold same_lists. by rewrite E1, E2, E3, E4.
Qed.

Lemma loop_body_unparsed st properties tot s :
  ∃ s', loop_body st properties tot None s = (Ok tt, s') ∧ same_lists s' s.
Proof.
  rewrite loop_body_run, try_body_unparsed.
  change (is_AttributeError none_has_no_props) with true. cbv iota.
  eexists. split; [done |].
  destruct (skip_record_fields tot none_has_no_props s) as (? & ? & _). by split.
Qed.

(** *** The records that do not parse *)

(** The loop over a list and the loop over the list without its records
    that do not parse end alike, with the same [X] and [Y]. *)
Lemma loop_skips_unparsed st properties tot tot' suppl :
  ∀ s t, same_lists s t →
  let r := Stmt.for_each (loop_body st properties tot) suppl s in
  let r' := Stmt.for_each (loop_body st properties tot')
              (List.filter is_parsed suppl) t in
  r.1 = r'.1 ∧ same_lists r.2 r'.2.
Proof.
  induction suppl as [|mol suppl IH]; intros s t Hst; [done |].
  cbn zeta. rewrite for_each_cons. destruct mol as [m|]; cbn [List.filter is_parsed].
  - rewrite for_each_cons.
    destruct (loop_body_same st properties tot tot' (Some m) s t Hst) as [H1 H2].
    destruct (loop_body st properties tot (Some m) s) as [[[]|e] s1],
             (loop_body st properties tot' (Some m) t) as [[[]|e'] t1];
      cbn [fst snd] in H1, H2; try done.
    by apply IH.
  - destruct (loop_body_unparsed st properties tot s) as (s1 & -> & H1).
    apply IH. destruct H1 as [E1 E2], Hst as [E3 E4]. split; congruence.
Qed.

Lemma collect_parsed_only st properties suppl suppl' s t :
  List.filter is_parsed suppl = List.filter is_parsed suppl' →
  let r := collect st properties suppl s in
  let r' := collect st properties suppl' t in
  r.1 = r'.1 ∧ same_lists r.2 r'.2.
Proof.
  intros Hf. cbn zeta. rewrite !collect_run.
  destruct (loop_skips_unparsed st properties (length suppl) 0 suppl
              (init_vars s) (init_vars t)) as [H1 [H2 H3]]; [done |].
  destruct (loop_skips_unparsed st properties (length suppl') 0 suppl'
              (init_vars t) (init_vars t)) as [H4 [H5 H6]]; [done |].
  rewrite Hf in H1, H2, H3. split; [congruence |]. split; congruence.
Qed.

(** The pairs of a call are those of its file, whatever state it starts
    in. *)
Lemma collect_file_order_pairs sdf st properties s :
  let s1 := (collect st properties (SDMolSupplier sdf) s).2 in
  zip (X s1) (Y s1) = file_order_pairs sdf st properties.
Proof.
  destruct (collect_parsed_only st properties (SDMolSupplier sdf) (SDMolSupplier sdf)
              s (fresh (seed 1)) eq_refl) as [_ [HX HY]].
  cbn zeta. unfold file_order_pairs. by rewrite HX, HY.
Qed.

(** *** The records handled, whatever the outcome *)

(** The records the loop handled are the first [k] of the list, each once
    and in order; the loop stops early only at a record that parsed and
    raised something else than an [AttributeError]. *)
Lemma loop_prefix st properties tot suppl :
  ∀ s, let r := Stmt.for_each (loop_body st properties tot) suppl s in
  ∃ k, (k ≤ length suppl)%nat
    ∧ counter r.2 = (counter s + k)%nat
    ∧ trace r.2 = trace s ++ loop_events tot (counter s) (take k suppl)
    ∧ match r.1 with
      | Ok _ => k = length suppl
      | Raise e => is_AttributeError e = false ∧ ∃ m, suppl !! k = Some (Some m)
      end.
Proof.
  induction suppl as [|mol suppl IH]; intros s.
  - exists 0%nat. cbn. rewrite app_nil_r. repeat split; lia.
  - cbn zeta. rewrite for_each_cons, loop_body_run.
    destruct mol as [m|].
    + pose proof (try_body_parsed st properties m s) as Hp.
      destruct (try_body st properties (Some m) s) as [[[]|e] s1];
        destruct Hp as (Ht & Hc & He).
      * destruct (IH (next_record tot s1)) as (k & Hk & Hcnt & Htr & Hout).
        destruct (next_record_fields tot s1) as (_ & _ & Ec & _).
        exists (S k). cbn [length take loop_events]. unfold events_of.
        split; [lia |]. split; [rewrite Hcnt, Ec, Hc; lia |].
        split; [| destruct (Stmt.for_each _ _ _).1 as [[]|?]; [lia | exact Hout]].
        rewrite Htr, next_record_trace, Ht, Hc, Ec, Hc, <- app_assoc.
        by replace (counter s + 1)%nat with (S (counter s)) by lia.
      * rewrite (He e eq_refl). exists 0%nat. cbn [take loop_events length snd fst].
        rewrite app_nil_r. split; [lia |]. split; [lia |]. split; [congruence |].
        split; [by apply He | by exists m].
    + rewrite try_body_unparsed.
      change (is_AttributeError none_has_no_props) with true. cbv iota.
      destruct (IH (skip_record tot none_has_no_props s)) as (k & Hk & Hcnt & Htr & Hout).
      destruct (skip_record_fields tot none_has_no_props s) as (_ & _ & Ec & _).
      exists (S k). cbn [length take loop_events]. unfold events_of.
      split; [lia |]. split; [rewrite Hcnt, Ec; lia |].
      split; [| destruct (Stmt.for_each _ _ _).1 as [[]|?]; [lia | exact Hout]].
      rewrite Htr, skip_record_trace, Ec, <- app_assoc.
      by replace (counter s + 1)%nat with (S (counter s)) by lia.
Qed.


(** *** After the loop *)

Lemma shuffle_and_save_log sdf st properties npz s :
  length (X s) = length (Y s) →
  let r := shuffle_and_save sdf st properties npz s in
  counter r.2 = counter s
  ∧ ∃ tail, trace r.2 = trace s ++ tail ∧ Forall (λ ev, is_summary ev = true) tail.
Proof.
  intros Hlen. rewrite shuffle_and_save_run by done. cbn zeta.
  destruct (shuffle _ _) as [[[|p mols]|e] g']; cbn [snd counter trace emit set_rng
    set_X set_Y savez]; (split; [done |]).
  - eexists [_]. split; [done |]. by repeat constructor.
  - eexists [_; _]. split; [by rewrite <- app_assoc |]. by repeat constructor.
  - eexists [_]. split; [done |]. by repeat constructor.
Qed.

Lemma shuffle_and_save_same sdf sdf' st properties npz s t :
  same_lists s t → rng s = rng t → saved s = saved t →
  length (X s) = length (Y s) →
  let r := shuffle_and_save sdf st properties npz s in
  let r' := shuffle_and_save sdf' st properties npz t in
  r.1 = r'.1 ∧ same_lists r.2 r'.2 ∧ rng r.2 = rng r'.2
  ∧ arrays <$> saved r.2 = arrays <$> saved r'.2.
Proof.
  intros [HX HY] Hg Hs Hlen. cbn zeta.
  rewrite !shuffle_and_save_run by congruence. cbn zeta.
  rewrite <- HX, <- HY, <- Hg.
  destruct (shuffle _ _) as [[[|p mols]|e] g'];
    cbn [fst snd X Y rng saved emit set_rng set_X set_Y savez]; unfold same_lists;
    cbn [X Y rng saved emit set_rng set_X set_Y savez];
    rewrite <- ?HX, <- ?HY, <- ?Hs; try done.
  repeat split. by rewrite !fmap_app.
Qed.

(** *** The shuffle as a permutation of indices *)

Lemma swap_natural {A} (x0 x : list A) (σ : list nat) i j :
  Forall2 (λ k a, x0 !! k = Some a) σ x →
  match swap σ i j, swap x i j with
  | Ok σ', Ok x' => Forall2 (λ k a, x0 !! k = Some a) σ' x'
  | Raise e, Raise e' => e = e'
  | _, _ => False
  end.
Proof.
  intros Hσ. destruct (swap x i j) as [x'|e] eqn:Hx.
  - destruct (swap_reindex _ _ _ _ _ _ Hσ Hx) as (σ' & -> & H). exact H.
  - unfold swap in *.
    destruct (x !! j) as [xj|] eqn:Hj.
    + destruct (x !! i) as [xi|] eqn:Hi; [done |]. injection Hx as <-.
      destruct (σ !! j); [| done].
      destruct (σ !! i) as [si|] eqn:Hsi; [| done].
      destruct (Forall2_lookup_l _ _ _ _ _ Hσ Hsi) as (? & ? & _). congruence.
    + injection Hx as <-.
      destruct (σ !! j) as [sj|] eqn:Hsj; [| done].
      destruct (Forall2_lookup_l _ _ _ _ _ Hσ Hsj) as (? & ? & _). congruence.
Qed.

Lemma shuffle_steps_natural {A} (x0 : list A) indices :
  ∀ (x : list A) (σ : list nat) g,
  Forall2 (λ k a, x0 !! k = Some a) σ x →
  match shuffle_steps indices σ g, shuffle_steps indices x g with
  | (Ok σ', g1), (Ok x', g2) => g1 = g2 ∧ Forall2 (λ k a, x0 !! k = Some a) σ' x'
  | (Raise e, g1), (Raise e', g2) => e = e' ∧ g1 = g2
  | _, _ => False
  end.
Proof.
  induction indices as [|i rest IH]; intros x σ g Hσ.
  - done.
  - cbn [shuffle_steps]. destruct (randbelow g (i + 1)) as [j g1].
    pose proof (swap_natural x0 x σ i j Hσ) as Hs.
    destruct (swap σ i j) as [σ1|e], (swap x i j) as [x1|e']; try done.
    by apply IH.
Qed.

Lemma reindex_lookup {A} (x0 x : list A) (σ : list nat) :
  Forall2 (λ k a, x0 !! k = Some a) σ x → x = reindex σ x0.
Proof.
  unfold reindex. induction 1 as [|k a σ x Hk _ IH]; [done |].
  cbn. rewrite Hk. cbn. by rewrite <- IH.
Qed.

(** The order a shuffle leaves a list in is the order it leaves the
    indices of the list in: it depends on the list through its length
    only. *)
Lemma shuffle_natural {A} (x x' : list A) g g' :
  shuffle x g = (Ok x', g') →
  ∃ σ, shuffle (seq 0 (length x)) g = (Ok σ, g') ∧ x' = reindex σ x.
Proof.
  unfold shuffle. rewrite length_seq. intros H.
  pose proof (shuffle_steps_natural x (shuffle_indices (length x)) x
                (seq 0 (length x)) g (identity_index x)) as Hn.
  rewrite H in Hn.
  destruct (shuffle_steps _ (seq 0 (length x)) g) as [[σ|e] g1]; [| done].
  destruct Hn as [-> Hσ]. exists σ. split; [done |]. by apply reindex_lookup.
Qed.

(** *** A call *)

Lemma convert_without_properties sdf st npz s :
  (convert_sdf_to_npz sdf st None npz s).1 ≠ Ok tt.
Proof.
  rewrite convert_run, collect_run.
  destruct (loop_without_properties st (length (SDMolSupplier sdf))
              (SDMolSupplier sdf) (init_vars (emit (PrintStart sdf st None) s)))
    as [H1 H2].
  destruct (decide (Exists (λ mol, is_unparsed mol = false) (SDMolSupplier sdf)))
    as [Hex | Hn].
  - specialize (H1 Hex). by destruct (Stmt.for_each _ _ _) as [[[]|e] s1].
  - apply not_Exists_Forall in Hn; [| solve_decision].
    assert (Forall (λ mol, is_unparsed mol = true) (SDMolSupplier sdf)) as Hall.
    { eapply Forall_impl; [exact Hn |]. intros mol Hm. cbn in Hm.
      by destruct (is_unparsed mol). }
    destruct (H2 Hall) as (Hok & HX & HY).
    destruct (Stmt.for_each _ _ _) as [[[]|e] s1]; [| done].
    cbn [snd] in HX, HY. rewrite shuffle_and_save_run by (by rewrite HX, HY).
    cbn zeta. by rewrite HX, HY.
Qed.

(** The file of a completed call, from the records and the state of the
    generator alone. *)
Lemma convert_seeded sdf st properties npz s s' :
  convert_sdf_to_npz sdf st properties npz s = (Ok tt, s') →
  let rows := file_order_pairs sdf st properties in
  ∃ σ, shuffle (seq 0 (length rows)) (rng s) = (Ok σ, rng s')
    ∧ saved s' = saved s ++ [mkNpz (output_path sdf st npz)
                               (reindex σ rows).*1 (reindex σ rows).*2].
Proof.
  rewrite convert_run. intros H rows.
  destruct (collect_preserves st properties (SDMolSupplier sdf)
              (emit (PrintStart sdf st properties) s)) as (Hlen & Hrng & Hsaved).
  pose proof (collect_file_order_pairs sdf st properties
                (emit (PrintStart sdf st properties) s)) as Hrows.
  fold rows in Hrows. cbn zeta in Hrows.
  destruct (collect _ _ _ _) as [[[]|e] s1]; [| done].
  cbn [snd] in *. rewrite shuffle_and_save_run in H by done. cbn zeta in H.
  rewrite Hrows, Hrng in H. cbn [rng emit] in H.
  destruct (shuffle rows (rng s)) as [[mols|e] g'] eqn:Hsh; [| done].
  destruct (shuffle_natural _ _ _ _ Hsh) as (σ & Hσ & ->).
  exists σ. destruct (reindex σ rows) as [|p mols] eqn:Hre; [done |].
  injection H as <-. cbn [rng saved savez emit set_X set_Y set_rng].
  by rewrite Hsaved.
Qed.

(** C1, as amended: a call that returns was given a list of properties and
    has saved one file; every record of the input file has one slot, in
    file order, and the slot holds a (structure, label) pair if and only if
    the record parses to a molecule and every requested property name is
    among the keys of its property dictionary; the label of a pair lists
    the values of the requested properties of that record in the order of
    the [properties] argument; [X] and [Y] after the loop are the
    structures and the labels of the pairs, in file order, and the rows of
    the saved file are these pairs, up to order. A call that raises has
    saved nothing, whatever its records. *)
Theorem convert_includes_exactly sdf st properties npz s :
  let r := convert_sdf_to_npz sdf st properties npz s in
  let s1 := (collect st properties (SDMolSupplier sdf)
               (emit (PrintStart sdf st properties) s)).2 in
  (r.1 = Ok tt →
   ∃ props f slots,
     properties = Some props
     ∧ saved r.2 = saved s ++ [f]
     ∧ Forall2 (includes props) (SDMolSupplier sdf) slots
     ∧ X s1 = (pairs_of slots).*1 ∧ Y s1 = (pairs_of slots).*2
     ∧ zip (npz_x f) (npz_y f) ≡ₚ pairs_of slots)
  ∧ (∀ e, r.1 = Raise e → saved r.2 = saved s).
Proof.
  intros r s1. split; [| intros e He; by eapply convert_raise_saves_nothing].
  intros Hr. destruct properties as [props|];
    [| by destruct (convert_without_properties sdf st npz s)].
  assert (H : r = (Ok tt, r.2)) by (destruct r; cbn in Hr; by subst).
  destruct (convert_saved_slots _ _ _ _ _ _ H) as (mols & slots & Hsaved & Hslots & Hperm & _).
  destruct (convert_ok_collect _ _ _ _ _ _ H) as (s1' & Hc & _).
  destruct (collect_slots _ _ _ _ _ Hc) as (slots' & Hslots' & HX & HY & _).
  subst s1. rewrite Hc. cbn [snd].
  exists props, (mkNpz (output_path sdf st npz) mols.*1 mols.*2), slots'.
  split; [done |]. split; [exact Hsaved |].
  split.
  { eapply Forall2_impl; [exact Hslots' |].
    intros mol slot [Hiff Hpair]. split; [exact Hiff |].
    intros x y Hxy. destruct (Hpair x y Hxy) as (m & ? & _ & ?). eauto. }
  split; [exact HX |]. split; [exact HY |]. cbn [npz_x npz_y].
  rewrite zip_fst_snd.
  destruct (convert_saves _ _ _ _ _ _ H) as (mols' & g' & Hsh & _ & Hsaved').
  rewrite Hsaved in Hsaved'. apply app_inv_head in Hsaved'. injection Hsaved' as E1 E2.
  rewrite Hc in Hsh. cbn [snd] in Hsh.
  apply shuffle_Permutation in Hsh. rewrite HX, HY, zip_fst_snd in Hsh.
  assert (mols = mols') as ->.
  { rewrite <- (zip_fst_snd mols), <- (zip_fst_snd mols'). by rewrite E1, E2. }
  exact Hsh.
Qed.

(** C6: a call handles the records of the input file in one pass, in file
    order, each once. Whatever the outcome, the call has handled the first
    [k] records of the file, its counter is [k], and what it printed and
    logged is the opening line, then for each of these records, in order,
    its warning if it failed to parse and its progress line, then the
    summary lines. The pass stops before the end of the file only at a
    record that parsed and raised something else than an [AttributeError],
    which the call raises; so a record that raises [AttributeError] is
    logged and the pass goes on to the next record. Such a record
    contributes nothing: on two files with the same parsed records in the
    same order the call has the same outcome, the same [X] and [Y], leaves
    the generator in the same state and saves the same arrays. *)
Theorem single_pass_over_the_records sdf st properties npz s :
  let suppl := SDMolSupplier sdf in
  let r := convert_sdf_to_npz sdf st properties npz s in
  (∃ k tail,
     (k ≤ length suppl)%nat
     ∧ counter r.2 = k
     ∧ trace r.2 = trace s ++ PrintStart sdf st properties
                     :: loop_events (length suppl) 0 (take k suppl) ++ tail
     ∧ Forall (λ ev, is_summary ev = true) tail
     ∧ ((k < length suppl)%nat →
        ∃ m e, suppl !! k = Some (Some m) ∧ r.1 = Raise e
               ∧ is_AttributeError e = false ∧ tail = []))
  ∧ (∀ sdf',
       List.filter is_parsed (SDMolSupplier sdf') = List.filter is_parsed suppl →
       let r' := convert_sdf_to_npz sdf' st properties npz s in
       r'.1 = r.1 ∧ X r'.2 = X r.2 ∧ Y r'.2 = Y r.2 ∧ rng r'.2 = rng r.2
       ∧ arrays <$> saved r'.2 = arrays <$> saved r.2).
Proof.
  intros suppl r. split.
  - subst r. rewrite convert_run, collect_run.
    set (s0 := init_vars (emit (PrintStart sdf st properties) s)).
    destruct (loop_preserves st properties (length suppl) suppl s0) as (Hlen & _).
    destruct (loop_prefix st properties (length suppl) suppl s0)
      as (k & Hk & Hcnt & Htr & Hout).
    fold suppl. destruct (Stmt.for_each _ _ _) as [[[]|e] s1]; cbn [fst snd] in *.
    + subst k.
      destruct (shuffle_and_save_log sdf st properties npz s1) as (Hc & tail & Ht & Hs).
      { by apply Hlen. }
      exists (length suppl), tail. split; [done |]. split; [by rewrite Hc, Hcnt |].
      split; [| split; [done | lia]].
      rewrite Ht, Htr. subst s0. cbn [trace init_vars emit counter].
      rewrite firstn_all, <- !app_assoc. reflexivity.
    + destruct Hout as (He & m & Hm).
      exists k, []. split; [done |]. split; [by rewrite Hcnt |].
      split; [| split; [done | intros _; by exists m, e]].
      rewrite Htr. subst s0. cbn [trace init_vars emit counter].
      rewrite app_nil_r, <- !app_assoc. reflexivity.
  - intros sdf' Hf r'. subst r r'. rewrite !convert_run.
    pose proof (collect_parsed_only st properties (SDMolSupplier sdf') suppl
                  (emit (PrintStart sdf' st properties) s)
                  (emit (PrintStart sdf st properties) s) Hf) as (H1 & H2).
    destruct (collect_preserves st properties (SDMolSupplier sdf')
                (emit (PrintStart sdf' st properties) s)) as (Hlen' & Hg' & Hs').
    destruct (collect_preserves st properties suppl
                (emit (PrintStart sdf st properties) s)) as (Hlen & Hg & Hs).
    fold suppl.
    destruct (collect st properties (SDMolSupplier sdf') _) as [[[]|e'] t1],
             (collect st properties suppl _) as [[[]|e] s1];
      cbn [fst snd rng saved emit] in *; try done.
    + destruct (shuffle_and_save_same sdf' sdf st properties npz t1 s1)
        as (E1 & [E2 E3] & E4 & E5); [done | congruence | congruence | done |].
      done.
    + destruct H2 as [E2 E3]. repeat split; congruence.
Qed.

(** *** The script *)

Lemma main_run_calls s : main s = run_calls main_calls s.
Proof.
  unfold main, main_calls. cbv zeta.
  cbn [run_calls call_sdf call_struct_type call_properties call_npz].
  unfold mbind, mret, M_bind, M_ret, Stmt.bind, Stmt.ret.
  repeat (destruct (convert_sdf_to_npz _ _ _ _ _) as [[[]|?] ?]; [| reflexivity]).
  reflexivity.
Qed.

(** The files of a sequence of calls, whatever its outcome: those of the
    calls that completed. *)
Lemma run_calls_files calls :
  ∀ s, let r := run_calls calls s in
  ∃ files, saved r.2 = saved s ++ files
    ∧ files `prefix_of` seeded_files (rng s) calls
    ∧ (r.1 = Ok tt → files = seeded_files (rng s) calls).
Proof.
  induction calls as [|c rest IH]; intros s.
  - exists []. cbn. by rewrite app_nil_r.
  - cbn zeta. cbn [run_calls seeded_files]. unfold mbind, M_bind, Stmt.bind.
    destruct (convert_sdf_to_npz (call_sdf c) (call_struct_type c)
                (call_properties c) (call_npz c) s) as [[[]|e] s1] eqn:Hc.
    + apply convert_seeded in Hc as (σ & Hσ & Hsaved). rewrite Hσ.
      destruct (IH s1) as (files & Hf & Hpre & Hok).
      eexists (_ :: files). split; [by rewrite Hf, Hsaved, <- app_assoc |].
      split; [by apply prefix_cons |]. intros Hr. by rewrite (Hok Hr).
    + pose proof (convert_raise_saves_nothing (call_sdf c) (call_struct_type c)
                    (call_properties c) (call_npz c) s e) as Hn.
      rewrite Hc in Hn. specialize (Hn eq_refl). cbn [fst snd] in *.
      exists []. split; [by rewrite app_nil_r |]. split; [apply prefix_nil | done].
Qed.

(** C10: whatever state the generator was in when the module was loaded,
    the files a run of the script has saved are the first of these, and
    all six when the run completes: for each call of [main], in order, the
    pairs of the call in file order, read through the permutation that the
    shuffle of line 87 draws for that many rows from the generator as line
    13 seeded it, with the constant 1, and as the calls before left it. So
    two runs end alike and have saved the same arrays, element for
    element. *)
Theorem script_saves_seeded_shuffles (entropy1 entropy2 : rng_state) :
  let r1 := script (fresh entropy1) in
  let r2 := script (fresh entropy2) in
  saved r1.2 `prefix_of` seeded_files (seed 1) main_calls
  ∧ (r1.1 = Ok tt → saved r1.2 = seeded_files (seed 1) main_calls)
  ∧ r2.1 = r1.1 ∧ saved r2.2 = saved r1.2.
Proof.
  assert (Hrun : ∀ entropy,
            script (fresh entropy)
            = run_calls main_calls (set_rng (seed 1) (fresh entropy))).
  { intros entropy. unfold script, mbind, M_bind, Stmt.bind, Stmt.modify.
    apply main_run_calls. }
  intros r1 r2. subst r1 r2. rewrite !Hrun.
  destruct (run_calls_files main_calls (set_rng (seed 1) (fresh entropy1)))
    as (files & Hf & Hpre & Hok).
  cbn [saved rng set_rng fresh app] in Hf, Hpre, Hok.
  rewrite Hf. split; [exact Hpre |]. split; [exact Hok |]. done.
Qed.

End WholeCalls.

(** ** The statements on whole calls at the instances *)

Lemma convert_includes_exactly_witness :
  let s := fresh (lib := Toy.library) 0%nat in
  let r := convert_sdf_to_npz (lib := Toy.library) "toy.sdf" "fingerprints"
             (Some Toy.requested) None s in
  let s1 := (collect "fingerprints" (Some Toy.requested) (SDMolSupplier "toy.sdf")
               (emit (PrintStart "toy.sdf" "fingerprints" (Some Toy.requested)) s)).2 in
  r.1 = Ok tt
  ∧ ∃ props f slots,
      Some Toy.requested = Some props
      ∧ saved r.2 = saved s ++ [f]
      ∧ Forall2 (includes props) (SDMolSupplier "toy.sdf") slots
      ∧ X s1 = (pairs_of slots).*1 ∧ Y s1 = (pairs_of slots).*2
      ∧ zip (npz_x f) (npz_y f) ≡ₚ pairs_of slots.
Proof.
  intros s r s1. assert (H : r.1 = Ok tt) by (vm_compute; reflexivity).
  split; [exact H |].
  exact (proj1 (convert_includes_exactly (lib := Toy.library) "toy.sdf" "fingerprints"
                  (Some Toy.requested) None s) H).
Defined.

(** C1, as stated, fails on a call that raises: the first record of the
    file parses and has both requested properties, and the call, which
    does not know the structure type, includes no pair for it: it raises
    with [X] and [Y] empty and saves nothing. *)
Lemma qualifying_record_not_included :
  let r := convert_sdf_to_npz (lib := Toy.library) "toy.sdf" "smiles"
             (Some Toy.requested) None (fresh (lib := Toy.library) 0%nat) in
  SDMolSupplier (Library := Toy.library) "toy.sdf" !! 0%nat = Some (Some Toy.ethanol)
  ∧ qualifies (lib := Toy.library) Toy.requested (Some Toy.ethanol)
  ∧ r.1 = Raise unknown_struct_type
  ∧ length (X r.2) = 0%nat ∧ length (Y r.2) = 0%nat ∧ length (saved r.2) = 0%nat.
Proof.
  split; [reflexivity |]. split.
  { exists Toy.ethanol. split; [reflexivity |].
    intros key Hkey. unfold Toy.requested in Hkey.
    apply elem_of_cons in Hkey as [-> | Hkey]; [vm_compute; eauto |].
    apply elem_of_cons in Hkey as [-> | Hkey]; [vm_compute; eauto |].
    by apply elem_of_nil in Hkey. }
  repeat split; vm_compute; reflexivity.
Qed.

Lemma single_pass_over_the_records_witness :
  let s := fresh (lib := Clean.library) 0%nat in
  let r := convert_sdf_to_npz (lib := Clean.library) "toy.sdf" "fingerprints"
             (Some Toy.requested) None s in
  let r' := convert_sdf_to_npz (lib := Clean.library) "parsed.sdf" "fingerprints"
              (Some Toy.requested) None s in
  List.filter is_parsed (SDMolSupplier (Library := Clean.library) "parsed.sdf")
  = List.filter is_parsed (SDMolSupplier (Library := Clean.library) "toy.sdf")
  ∧ r'.1 = r.1 ∧ X r'.2 = X r.2 ∧ Y r'.2 = Y r.2 ∧ rng r'.2 = rng r.2
  ∧ arrays <$> saved r'.2 = arrays <$> saved r.2.
Proof.
  intros s r r'.
  assert (H : List.filter is_parsed (SDMolSupplier (Library := Clean.library) "parsed.sdf")
              = List.filter is_parsed (SDMolSupplier (Library := Clean.library) "toy.sdf"))
    by reflexivity.
  split; [exact H |].
  exact (proj2 (single_pass_over_the_records (lib := Clean.library) "toy.sdf"
                  "fingerprints" (Some Toy.requested) None s) "parsed.sdf" H).
Defined.

(** C8, as stated, fails: a call that is given the path [out] completes,
    and the file NumPy writes is [out.npz]; the output is not at the path
    that was given. *)
Lemma output_file_gets_npz_suffix :
  let r := convert_sdf_to_npz (lib := Toy.library) "toy.sdf" "fingerprints"
             (Some Toy.requested) (Some "out") (fresh (lib := Toy.library) 0%nat) in
  completes r = true
  ∧ npz_path <$> saved r.2 = ["out"]
  ∧ written_file <$> saved r.2 = ["out.npz"]
  ∧ "out.npz" ≠ "out".
Proof.
  split; [vm_compute; reflexivity |]. split; [vm_compute; reflexivity |].
  split; [vm_compute; reflexivity | discriminate].
Qed.

(** C9, as stated, fails: with [properties] left at [None] no record
    passes the filter, [X] and [Y] stay empty, and the call raises at the
    first record, at [set(properties)] on line 52 and not at the unpacking
    of line 90. *)
Lemma no_record_passes_without_unpacking :
  let r := convert_sdf_to_npz (lib := Toy.library) "toy.sdf" "fingerprints"
             None None (fresh (lib := Toy.library) 0%nat) in
  r.1 = Raise none_not_iterable
  ∧ none_not_iterable ≠ unpack_error
  ∧ length (X r.2) = 0%nat ∧ length (Y r.2) = 0%nat
  ∧ counter r.2 = 0%nat ∧ length (saved r.2) = 0%nat.
Proof.
  split; [vm_compute; reflexivity |]. split; [discriminate |].
  split; [vm_compute; reflexivity |]. split; [vm_compute; reflexivity |].
  split; vm_compute; reflexivity.
Qed.

Lemma script_saves_seeded_shuffles_witness :
  let r1 := script (fresh (lib := Lab.library) 0%nat) in
  let r2 := script (fresh (lib := Lab.library) 5%nat) in
  r1.1 = Ok tt
  ∧ saved r1.2 = seeded_files (lib := Lab.library) (seed 1) main_calls
  ∧ r2.1 = r1.1 ∧ saved r2.2 = saved r1.2.
Proof.
  intros r1 r2. assert (H : r1.1 = Ok tt) by (vm_compute; reflexivity).
  pose proof (script_saves_seeded_shuffles (lib := Lab.library) 0%nat 5%nat) as T.
  exact (conj H (conj (proj1 (proj2 T) H) (proj2 (proj2 T)))).
Defined.
